(** * Programmatic Stretch: a shallow embedding of [programmaticStretch.js]

    The script registers one [message] listener.  For each event it decodes
    the payload, checks the two sentinel fields, looks for the ad iframe,
    resolves a height and resizes the slot (or hands over to a publisher
    callback).  This file embeds the script function by function and proves
    properties of the embedding.

    Modelling conventions.
    - JavaScript values are the inductive [value].  Numbers are [number]:
      NaN, the two infinities and the integers; fractional doubles are not
      represented.  The decimal rendering of an integer agrees with
      JavaScript's for magnitudes below 10^21.
    - Plain objects are association lists from property names to values;
      only own properties are modelled (no prototype chain).  Arrays decoded
      from JSON are objects as well.
    - The page (document tree, computed styles, publisher configuration, ad
      server globals, console) is the record [Page]; the handler runs in a
      state and exception monad over it.
    - Function objects are numbered; what a call does is given by the
      section variable [call].  [JSON.parse] is a section variable, too. *)

From stdpp Require Import base option list strings pretty.
From Stdlib Require Import ZArith Lia Ascii String.

Local Open Scope string_scope.
Local Set Warnings "-register-all,-notation-for-abbreviation".

(** ** JavaScript values *)

Module JS.

Inductive number :=
| NaN
| PosInf
| NegInf
| Fin (z : Z).

(** A DOM element is referred to by its position in the document tree: the
    child indices from the element up to the root (own index first). *)
Definition elem := list nat.

Inductive value :=
| VUndef
| VNull
| VBool (b : bool)
| VNum (n : number)
| VStr (s : string)
| VObj (fields : list (string * value))
| VFun (f : nat)
| VElem (e : elem)
| VWindow (k : nat).

(** [n > 0] on numbers. *)
Definition num_pos (n : number) : bool :=
  match n with
  | PosInf => true
  | Fin z => (0 <? z)%Z
  | NaN | NegInf => false
  end.

(** ToBoolean on numbers: NaN and zero are falsy. *)
Definition num_truthy (n : number) : bool :=
  match n with
  | NaN => false
  | Fin z => negb (z =? 0)%Z
  | PosInf | NegInf => true
  end.

Definition num_to_string (n : number) : string :=
  match n with
  | NaN => "NaN"
  | PosInf => "Infinity"
  | NegInf => "-Infinity"
  | Fin z => pretty z
  end.

(** ToBoolean. *)
Definition truthy (v : value) : bool :=
  match v with
  | VUndef | VNull => false
  | VBool b => b
  | VNum n => num_truthy n
  | VStr s => negb (String.eqb s "")
  | VObj _ | VFun _ | VElem _ | VWindow _ => true
  end.

(** [v == null]: true of [null] and [undefined] only. *)
Definition nullish (v : value) : bool :=
  match v with
  | VUndef | VNull => true
  | _ => false
  end.

Definition typeof (v : value) : string :=
  match v with
  | VUndef => "undefined"
  | VNull => "object"
  | VBool _ => "boolean"
  | VNum _ => "number"
  | VStr _ => "string"
  | VObj _ | VElem _ | VWindow _ => "object"
  | VFun _ => "function"
  end.

(** ToString, as used by [+] with a string operand and by DOM methods that
    take a string. *)
Definition to_string (v : value) : string :=
  match v with
  | VUndef => "undefined"
  | VNull => "null"
  | VBool true => "true"
  | VBool false => "false"
  | VNum n => num_to_string n
  | VStr s => s
  | VObj _ => "[object Object]"
  | VFun _ => "function () { [native code] }"
  | VElem _ => "[object HTMLElement]"
  | VWindow _ => "[object Window]"
  end.

Fixpoint assoc (k : string) (fs : list (string * value)) : option value :=
  match fs with
  | [] => None
  | (k', v) :: fs' => if String.eqb k k' then Some v else assoc k fs'
  end.

(** Property read [v.k] on a value that is not [null] or [undefined]: an own
    property of an object, [undefined] otherwise. *)
Definition prop (v : value) (k : string) : value :=
  match v with
  | VObj fs => default VUndef (assoc k fs)
  | _ => VUndef
  end.

(** [a || b] *)
Definition or_else (a b : value) : value := if truthy a then a else b.

(** [a && b] *)
Definition and_then (a b : value) : value := if truthy a then b else a.

(** [v === s] for a string literal [s]. *)
Definition is_str (v : value) (s : string) : bool :=
  match v with
  | VStr t => String.eqb t s
  | _ => false
  end.

(** [typeof v === 'number' && v > 0] *)
Definition pos_number (v : value) : bool :=
  match v with
  | VNum n => num_pos n
  | _ => false
  end.

(** *** [parseInt(s, 10)] *)

Definition is_space (c : ascii) : bool :=
  let n := nat_of_ascii c in
  (n =? 32)%nat || ((9 <=? n)%nat && (n <=? 13)%nat).

Definition digit_of (c : ascii) : option Z :=
  let n := nat_of_ascii c in
  if ((48 <=? n)%nat && (n <=? 57)%nat) then Some (Z.of_nat (n - 48)) else None.

Fixpoint skip_spaces (s : string) : string :=
  match s with
  | String c s' => if is_space c then skip_spaces s' else s
  | EmptyString => s
  end.

(** Reads the longest prefix of decimal digits; [acc] is [None] until the
    first digit has been seen. *)
Fixpoint read_digits (acc : option Z) (s : string) : option Z :=
  match s with
  | String c s' =>
      match digit_of c with
      | Some d => read_digits (Some (10 * default 0%Z acc + d)%Z) s'
      | None => acc
      end
  | EmptyString => acc
  end.

Definition parseInt (s : string) : number :=
  let s := skip_spaces s in
  let '(neg, s) :=
    match s with
    | String "-" s' => (true, s')
    | String "+" s' => (false, s')
    | _ => (false, s)
    end in
  match read_digits None s with
  | Some z => Fin (if neg then - z else z)%Z
  | None => NaN
  end.

End JS.

Import JS.

(** ** Resize logic: [getDimension] *)

(** [function getDimension(value) { return value ? value + 'px' : '100%'; }] *)
Definition getDimension (v : value) : string :=
  if truthy v then to_string v ++ "px" else "100%".

(** ** Exceptions *)

Inductive res (A : Type) :=
| Ok (a : A)
| Throw (e : value).
Arguments Ok {A} a.
Arguments Throw {A} e.

Definition res_bind {A B} (m : res A) (k : A -> res B) : res B :=
  match m with
  | Ok a => k a
  | Throw e => Throw e
  end.

(** [try { m } catch (e) { h e }] *)
Definition res_catch {A} (m : res A) (h : value -> res A) : res A :=
  match m with
  | Ok a => Ok a
  | Throw e => h e
  end.

Notation "x <~ m ; k" := (res_bind m (fun x => k))
  (at level 20, m at level 100, k at level 200, only parsing).

Definition type_error : value := VObj [("name", VStr "TypeError")].

(** Property read [v.k]: a [TypeError] on [null] and [undefined]. *)
Definition get_prop (v : value) (k : string) : res value :=
  if nullish v then Throw type_error else Ok (prop v k).

(** ** The page *)

Module Dom.

(** What the script reads and writes of an element.  [el_hidden] says
    whether the [style] attribute contains the text [display: none];
    [el_contentWindow] is what reading [contentWindow] gives: a window, [null],
    or an exception. *)
Record elem_data := {
  el_tag : string;
  el_id : string;
  el_hidden : bool;
  el_style_width : option string;
  el_style_height : option string;
  el_width : option value;
  el_height : option value;
  el_contentWindow : res (option nat)
}.

Inductive node := Node (d : elem_data) (kids : list node).

Definition node_data (t : node) : elem_data := let 'Node d _ := t in d.

(** The subtree reached from [t] by the child indices [path] (root first). *)
Fixpoint node_at (t : node) (path : list nat) : option node :=
  match path with
  | [] => Some t
  | i :: rest =>
      let 'Node _ kids := t in
      match kids !! i with
      | Some k => node_at k rest
      | None => None
      end
  end.

(** Applies [f] to the data of the node at [path]. *)
Fixpoint alter_at (f : elem_data -> elem_data) (path : list nat) (t : node) : node :=
  match path with
  | [] => let 'Node d kids := t in Node (f d) kids
  | i :: rest => let 'Node d kids := t in Node d (alter (alter_at f rest) i kids)
  end.

(** The elements of [t] in document order, each with its reference; [at_]
    is the reference of [t] itself. *)
Fixpoint preorder (t : node) (at_ : elem) : list (elem * elem_data) :=
  let 'Node d kids := t in
  (at_, d) ::
  (fix children (ks : list node) (i : nat) : list (elem * elem_data) :=
     match ks with
     | [] => []
     | k :: ks' => (preorder k (i :: at_) ++ children ks' (S i))%list
     end) kids 0%nat.

Definition set_style_width (s : string) (d : elem_data) : elem_data :=
  {| el_tag := el_tag d; el_id := el_id d; el_hidden := el_hidden d;
     el_style_width := Some s; el_style_height := el_style_height d;
     el_width := el_width d; el_height := el_height d;
     el_contentWindow := el_contentWindow d |}.

Definition set_style_height (s : string) (d : elem_data) : elem_data :=
  {| el_tag := el_tag d; el_id := el_id d; el_hidden := el_hidden d;
     el_style_width := el_style_width d; el_style_height := Some s;
     el_width := el_width d; el_height := el_height d;
     el_contentWindow := el_contentWindow d |}.

Definition set_width (v : value) (d : elem_data) : elem_data :=
  {| el_tag := el_tag d; el_id := el_id d; el_hidden := el_hidden d;
     el_style_width := el_style_width d; el_style_height := el_style_height d;
     el_width := Some v; el_height := el_height d;
     el_contentWindow := el_contentWindow d |}.

Definition set_height (v : value) (d : elem_data) : elem_data :=
  {| el_tag := el_tag d; el_id := el_id d; el_hidden := el_hidden d;
     el_style_width := el_style_width d; el_style_height := el_style_height d;
     el_width := el_width d; el_height := Some v;
     el_contentWindow := el_contentWindow d |}.

End Dom.

Import Dom.

(** The publisher tag API as the script uses it: [googletag.pubads().getSlots()]
    and three methods of a slot.  Every call may throw. *)
Record gpt_slot := {
  getTargetingKeys : res (list string);
  getTargeting : string -> res (option (list string));
  getSlotElementId : res string
}.

Record gpt_api := { getSlots : res (list gpt_slot) }.

(** [apntag.getTag(adUnitCode)] *)
Record apn_api := { getTag : value -> res value }.

Record console_api := { has_log : bool; has_warn : bool; has_error : bool }.

Inductive level := Info | Warn | Error.

(** - [computed e] is [None] when [window.getComputedStyle(e)] is falsy and
      [Some h] when its [height] is [h].
    - [googletag] is [None] unless [window.googletag] is truthy and has a
      [pubads] function; [apntag] likewise with [getTag].
    - [console] is [None] when there is no global [console]; [output] lists
      the console calls made so far, oldest first, each with its arguments. *)
Record Page := {
  dom : node;
  body : elem;
  computed : elem -> option string;
  config : value;
  googletag : option gpt_api;
  apntag : option apn_api;
  console : option console_api;
  output : list (level * list string)
}.

Definition with_dom (t : node) (pg : Page) : Page :=
  {| dom := t; body := body pg; computed := computed pg; config := config pg;
     googletag := googletag pg; apntag := apntag pg; console := console pg;
     output := output pg |}.

Definition with_output (o : list (level * list string)) (pg : Page) : Page :=
  {| dom := dom pg; body := body pg; computed := computed pg; config := config pg;
     googletag := googletag pg; apntag := apntag pg; console := console pg;
     output := o |}.

(** *** DOM queries *)

Definition data_at (pg : Page) (e : elem) : option elem_data :=
  node_data <$> node_at (dom pg) (rev e).

Definition is_iframe (d : elem_data) : bool := String.eqb (el_tag d) "iframe".

(** [document.querySelectorAll('iframe')] *)
Definition querySelectorAll_iframe (pg : Page) : list elem :=
  map fst (List.filter (fun x => is_iframe (snd x)) (preorder (dom pg) [])).

(** [document.getElementById(id)] *)
Definition getElementById (pg : Page) (id : string) : option elem :=
  if String.eqb id "" then None
  else fst <$> find (fun x => String.eqb (el_id (snd x)) id) (preorder (dom pg) []).

(** [el.querySelector('iframe:not([style*="display: none"])')]: the first
    descendant of [el] in document order that is an iframe and not hidden. *)
Definition querySelector_iframe (pg : Page) (el : elem) : option elem :=
  match node_at (dom pg) (rev el) with
  | Some t =>
      fst <$> find (fun x => is_iframe (snd x) && negb (el_hidden (snd x)))
                   (tail (preorder t el))
  | None => None
  end.

Definition parentElement (e : elem) : option elem :=
  match e with
  | [] => None
  | _ :: up => Some up
  end.

(** ** Configuration helpers *)

(** [window.programmaticStretch || {}] *)
Definition getConfig (pg : Page) : value := or_else (config pg) (VObj []).

(** [(cfg.slots && adUnitCode && cfg.slots[adUnitCode]) || null] *)
Definition getSlotConfig (pg : Page) (adUnitCode : value) : value :=
  let cfg := getConfig pg in
  or_else
    (and_then (and_then (prop cfg "slots") adUnitCode)
              (prop (prop cfg "slots") (to_string adUnitCode)))
    VNull.

(** ** Element lookup *)

(** The event as the listener reads it: [ev.data], [ev.message] and
    [ev.source] (a window, or [null]). *)
Record event := {
  ev_data : value;
  ev_message : value;
  ev_source : option nat
}.

Definition contentWindow (pg : Page) (f : elem) : res (option nat) :=
  match data_at pg f with
  | Some d => el_contentWindow d
  | None => Ok None
  end.

(** The loop of [findIframeBySource] over [iframes]; each round is a
    [try] whose [catch] is empty. *)
Fixpoint findIframeBySource_loop (pg : Page) (ev : event) (iframes : list elem)
  : res (option elem) :=
  match iframes with
  | [] => Ok None
  | f :: rest =>
      r <~ res_catch
             (w <~ contentWindow pg f;
              if decide (w = ev_source ev) then Ok (Some f) else Ok None)
             (fun _ => Ok None);
      match r with
      | Some found => Ok (Some found)
      | None => findIframeBySource_loop pg ev rest
      end
  end.

Definition findIframeBySource (pg : Page) (ev : event) : res (option elem) :=
  findIframeBySource_loop pg ev (querySelectorAll_iframe pg).

(** [values && values.indexOf(adId) !== -1] for the strings that
    [getTargeting] returns: [indexOf] compares with [===]. *)
Definition targeting_has (values : option (list string)) (adId : value) : bool :=
  match values, adId with
  | Some vs, VStr s => existsb (String.eqb s) vs
  | _, _ => false
  end.

(** The two loops of [findIframeByGptAdId].  [Some r] stands for
    [return r] out of the loops, [None] for running to their end. *)
Fixpoint gpt_scan_keys (pg : Page) (adId : value) (s : gpt_slot) (keys : list string)
  : res (option (option elem)) :=
  match keys with
  | [] => Ok None
  | k :: ks =>
      values <~ getTargeting s k;
      if targeting_has values adId then
        id <~ getSlotElementId s;
        match getElementById pg id with
        | Some el => Ok (Some (querySelector_iframe pg el))
        | None => gpt_scan_keys pg adId s ks
        end
      else gpt_scan_keys pg adId s ks
  end.

Fixpoint gpt_scan_slots (pg : Page) (adId : value) (slots : list gpt_slot)
  : res (option (option elem)) :=
  match slots with
  | [] => Ok None
  | s :: rest =>
      keys <~ getTargetingKeys s;
      r <~ gpt_scan_keys pg adId s keys;
      match r with
      | Some found => Ok (Some found)
      | None => gpt_scan_slots pg adId rest
      end
  end.

Definition findIframeByGptAdId (pg : Page) (adId : value) : res (option elem) :=
  if negb (truthy adId) then Ok None
  else
    r <~ res_catch
           (match googletag pg with
            | Some g => slots <~ getSlots g; gpt_scan_slots pg adId slots
            | None => Ok None
            end)
           (fun _ => Ok None);
    Ok (default None r).

Definition findIframeByApnTag (pg : Page) (adUnitCode : value) : res (option elem) :=
  if negb (truthy adUnitCode) then Ok None
  else
    r <~ res_catch
           (match apntag pg with
            | Some a =>
                tag <~ getTag a adUnitCode;
                if truthy (and_then tag (prop tag "targetId")) then
                  match getElementById pg (to_string (prop tag "targetId")) with
                  | Some el => Ok (Some (querySelector_iframe pg el))
                  | None => Ok None
                  end
                else Ok None
            | None => Ok None
            end)
           (fun _ => Ok None);
    Ok (default None r).

(** The last operand of [findAdIframe]: the [adUnitCode] as a DOM id. *)
Definition lastResort (pg : Page) (adUnitCode : value) : res (option elem) :=
  if truthy adUnitCode then
    match getElementById pg (to_string adUnitCode) with
    | Some el => Ok (querySelector_iframe pg el)
    | None => Ok None
    end
  else Ok None.

(** [a || b] on lookups: [b] is evaluated only when [a] gave [null]. *)
Definition or_lookup (a b : res (option elem)) : res (option elem) :=
  r <~ a;
  match r with
  | Some f => Ok (Some f)
  | None => b
  end.

Definition findAdIframe (pg : Page) (ev : event) (adId adUnitCode : value)
  : res (option elem) :=
  or_lookup (findIframeBySource pg ev)
    (or_lookup (findIframeByGptAdId pg adId)
       (or_lookup (findIframeByApnTag pg adUnitCode)
          (lastResort pg adUnitCode))).

Definition id_of (pg : Page) (e : elem) : string :=
  match data_at pg e with
  | Some d => el_id d
  | None => ""
  end.

(** The [while] loop of [guessAdUnitCode], entered with [el]. *)
Fixpoint guess_walk (pg : Page) (el : elem) : value :=
  if decide (el = body pg) then VNull
  else if negb (String.eqb (id_of pg el) "") then VStr (id_of pg el)
  else
    match el with
    | [] => VNull
    | _ :: up => guess_walk pg up
    end.

Definition guessAdUnitCode (pg : Page) (iframe : option elem) : value :=
  match iframe with
  | None => VNull
  | Some f =>
      match parentElement f with
      | Some el => guess_walk pg el
      | None => VNull
      end
  end.

(** ** Resize logic: [resolveHeight] *)

(** [window.getComputedStyle(iframe)]: a [TypeError] unless the argument is
    an element. *)
Definition getComputedStyle (pg : Page) (iframe : value) : res (option string) :=
  match iframe with
  | VElem e => Ok (computed pg e)
  | _ => Throw type_error
  end.

Definition is_number (v : value) : bool := String.eqb (typeof v) "number".

(** [v > 0] for an operand that is a number. *)
Definition gt_zero (v : value) : bool :=
  match v with
  | VNum n => num_pos n
  | _ => false
  end.

Definition resolveHeight (pg : Page) (slotCfg data iframe : value) : res value :=
  if truthy slotCfg && is_number (prop slotCfg "height") && gt_zero (prop slotCfg "height")
  then Ok (prop slotCfg "height")
  else
    mh <~ get_prop data "height";
    if is_number mh && gt_zero mh then Ok mh
    else if truthy iframe then
      c <~ getComputedStyle pg iframe;
      match c with
      | Some hs =>
          let h := parseInt hs in
          if num_pos h then Ok (VNum h) else Ok VNull
      | None => Ok VNull
      end
    else Ok VNull.

(** ** The handler monad *)

(** [calls] records, oldest first, the publisher callbacks the script has
    invoked and their arguments. *)
Record St := {
  page : Page;
  calls : list (nat * list value)
}.

Definition M (A : Type) : Type := St -> res A * St.

Definition ret {A} (a : A) : M A := fun st => (Ok a, st).

Definition bind {A B} (m : M A) (k : A -> M B) : M B :=
  fun st =>
    match m st with
    | (Ok a, st') => k a st'
    | (Throw e, st') => (Throw e, st')
    end.

Definition throw {A} (e : value) : M A := fun st => (Throw e, st).

(** [try { m } catch (e) { h e }] *)
Definition try_catch {A} (m : M A) (h : value -> M A) : M A :=
  fun st =>
    match m st with
    | (Ok a, st') => (Ok a, st')
    | (Throw e, st') => h e st'
    end.

Definition gets {A} (f : Page -> A) : M A := fun st => (Ok (f (page st)), st).

Definition read {A} (f : Page -> res A) : M A := fun st => (f (page st), st).

Definition update (f : Page -> Page) : M unit :=
  fun st => (Ok tt, {| page := f (page st); calls := calls st |}).

Notation "x <- m ; k" := (bind m (fun x => k))
  (at level 20, m at level 100, k at level 200, only parsing).

Fixpoint forEach {A} (l : list A) (f : A -> M unit) : M unit :=
  match l with
  | [] => ret tt
  | x :: l' => _ <- f x; forEach l' f
  end.

(** ** Logging helpers *)

Definition PREFIX : string := "[ProgrammaticStretch]".

(** [console.<method>.apply(console, [PREFIX, msg])] behind the guard
    [typeof console !== 'undefined' && console.<method>]. *)
Definition console_write (lvl : level) (method : console_api -> bool) (msg : string)
  (pg : Page) : Page :=
  match console pg with
  | Some c =>
      if method c then with_output (output pg ++ [(lvl, [PREFIX; msg])])%list pg
      else pg
  | None => pg
  end.

Definition logInfo (msg : string) : M unit := update (console_write Info has_log msg).

Definition logWarn (msg : string) : M unit := update (console_write Warn has_warn msg).

Definition logError (msg : string) : M unit := update (console_write Error has_error msg).

(** ** Resize logic: [defaultResize] *)

Definition write_elem (f : elem_data -> elem_data) (el : elem) : M unit :=
  update (fun pg => with_dom (alter_at f (rev el) (dom pg)) pg).

(** [iframe] is an element here, so the guard [if (iframe)] is passed; in
    the loop [None] is a [null] parent, which [if (el && el.style)] skips. *)
Definition defaultResize (iframe : elem) (width height : value) : M unit :=
  let widthCSS := getDimension width in
  let heightCSS := getDimension height in
  _ <- forEach [Some iframe; parentElement iframe] (fun el =>
         match el with
         | Some e =>
             _ <- write_elem (set_style_width widthCSS) e;
             write_elem (set_style_height heightCSS) e
         | None => ret tt
         end);
  _ <- (if truthy width then write_elem (set_width width) iframe
        else write_elem (set_width (VStr "100%")) iframe);
  if truthy height then write_elem (set_height height) iframe
  else ret tt.

(** ** The [postMessage] handler *)

Definition MESSAGE_CREATIVE : string := "Prebid Creative".
Definition ACTION_PROGRAMMATIC_STRETCH : string := "programmaticStretch".

Definition is_function (v : value) : bool := String.eqb (typeof v) "function".

(** [v === false] *)
Definition is_false (v : value) : bool :=
  match v with
  | VBool false => true
  | _ => false
  end.

(** The event object as a value, for the callback's third argument. *)
Definition event_value (ev : event) : value :=
  VObj [("data", ev_data ev); ("message", ev_message ev);
        ("source", match ev_source ev with Some k => VWindow k | None => VNull end)].

(** [var raw = ev.data != null ? ev.data : ev.message;] *)
Definition raw_of (ev : event) : value :=
  if negb (nullish (ev_data ev)) then ev_data ev else ev_message ev.

(** [if (!data || data.message !== MESSAGE_CREATIVE
         || data.action !== ACTION_PROGRAMMATIC_STRETCH) return;] *)
Definition not_stretch (data : value) : bool :=
  negb (truthy data)
  || negb (is_str (prop data "message") MESSAGE_CREATIVE)
  || negb (is_str (prop data "action") ACTION_PROGRAMMATIC_STRETCH).

Section Handler.

(** [JSON.parse]: the decoded value, or the exception it throws. *)
Variable JSON_parse : string -> res value.

(** [call f args pg]: what calling function number [f] on [args] does to the
    page, and what it returns or throws. *)
Variable call : nat -> list value -> Page -> res value * Page.

(** [fv(args...)]: a [TypeError] when [fv] is not a function. *)
Definition invoke (fv : value) (args : list value) : M value :=
  match fv with
  | VFun f =>
      fun st =>
        let '(r, pg') := call f args (page st) in
        (r, {| page := pg'; calls := (calls st ++ [(f, args)])%list |})
  | _ => throw type_error
  end.

(** The first statement of [onMessage]: [None] stands for [return]. *)
Definition decode (raw : value) : option value :=
  if String.eqb (typeof raw) "string" then
    match JSON_parse (to_string raw) with
    | Ok data => Some data
    | Throw _ => None
    end
  else if String.eqb (typeof raw) "object" then Some raw
  else None.

Definition threw_message (e : value) : string :=
  "Custom resizeFunction threw: " ++ to_string (and_then e (prop e "message")).

Definition applied_message (adId height : value) : string :=
  "programmaticStretch applied — adId: " ++ to_string adId
  ++ ", width: 100%, height: " ++ to_string (or_else height (VStr "100%")).

Definition onMessage (ev : event) : M unit :=
  let raw := raw_of ev in
  match decode raw with
  | None => ret tt
  | Some data =>
      if not_stretch data then ret tt
      else
        let adId := or_else (prop data "adId") VNull in
        let adUnitCode := or_else (prop data "adUnitCode") VNull in
        cfg <- gets getConfig;
        if is_false (prop cfg "enabled") then
          logWarn "Received programmaticStretch message but script is globally disabled."
        else
          found <- read (fun pg => findAdIframe pg ev adId adUnitCode);
          match found with
          | None =>
              logWarn ("Received programmaticStretch message but could not locate the ad iframe (adId: "
                       ++ to_string adId ++ ").")
          | Some iframe =>
              adUnitCode <- (if negb (truthy adUnitCode)
                             then gets (fun pg => guessAdUnitCode pg (Some iframe))
                             else ret adUnitCode);
              slotCfg <- gets (fun pg => getSlotConfig pg adUnitCode);
              height <- read (fun pg => resolveHeight pg slotCfg data (VElem iframe));
              let width := VNull in
              let meta := VObj [("iframe", VElem iframe); ("event", event_value ev)] in
              if truthy slotCfg && is_function (prop slotCfg "resizeFunction") then
                try_catch
                  (_ <- invoke (prop slotCfg "resizeFunction") [adId; height; meta]; ret tt)
                  (fun e => logError (threw_message e))
              else if is_function (prop cfg "resizeFunction") then
                try_catch
                  (_ <- invoke (prop cfg "resizeFunction") [adId; height; meta]; ret tt)
                  (fun e => logError (threw_message e))
              else
                _ <- defaultResize iframe width height;
                logInfo (applied_message adId height)
          end
  end.

End Handler.

(** ** Vocabulary of the properties *)

Definition elem_value (iframe : option elem) : value :=
  match iframe with
  | Some e => VElem e
  | None => VNull
  end.

(** The priority chain of the height, in the words of the design: the slot
    configuration's height if it is a number above zero, else the message's,
    else the computed height of the iframe read as an integer if above zero,
    else no height. *)
Definition height_by_priority (slot_height msg_height : value)
  (computed_height : option string) : value :=
  if pos_number slot_height then slot_height
  else if pos_number msg_height then msg_height
  else
    match computed_height with
    | Some hs => if num_pos (parseInt hs) then VNum (parseInt hs) else VNull
    | None => VNull
    end.

(** The ad unit code the handler settles on once the iframe is known. *)
Definition resolved_code (pg : Page) (data : value) (iframe : elem) : value :=
  let adUnitCode := or_else (prop data "adUnitCode") VNull in
  if negb (truthy adUnitCode) then guessAdUnitCode pg (Some iframe) else adUnitCode.

Definition resolved_slot (pg : Page) (data : value) (iframe : elem) : value :=
  getSlotConfig pg (resolved_code pg data iframe).

Definition resolved_height (pg : Page) (data : value) (iframe : elem) : value :=
  height_by_priority (prop (resolved_slot pg data iframe) "height")
                     (prop data "height") (computed pg iframe).

(** The callback the handler hands over to, if any: the slot's before the
    global one. *)
Definition selected_callback (pg : Page) (data : value) (iframe : elem) : option value :=
  let slotCfg := resolved_slot pg data iframe in
  if truthy slotCfg && is_function (prop slotCfg "resizeFunction")
  then Some (prop slotCfg "resizeFunction")
  else if is_function (prop (getConfig pg) "resizeFunction")
  then Some (prop (getConfig pg) "resizeFunction")
  else None.

Definition callback_args (pg : Page) (ev : event) (data : value) (iframe : elem)
  : list value :=
  [or_else (prop data "adId") VNull;
   resolved_height pg data iframe;
   VObj [("iframe", VElem iframe); ("event", event_value ev)]].

(** What [defaultResize] leaves on an element: the inline style of the
    iframe and of its parent, and the two attributes of the iframe. *)
Definition restyle (width height : value) (d : elem_data) : elem_data :=
  set_style_height (getDimension height) (set_style_width (getDimension width) d).

Definition reattribute (width height : value) (d : elem_data) : elem_data :=
  let d1 := set_width (if truthy width then width else VStr "100%") d in
  if truthy height then set_height height d1 else d1.


(** The first lookup that found an iframe. *)
Fixpoint first_found (rs : list (option elem)) : option elem :=
  match rs with
  | [] => None
  | Some f :: _ => Some f
  | None :: rest => first_found rest
  end.

(** The log lines of one severity. *)
Definition lines_of (lvl : level) (o : list (level * list string)) : list (list string) :=
  map snd (List.filter (fun x => match fst x, lvl with
                                 | Info, Info | Warn, Warn | Error, Error => true
                                 | _, _ => false
                                 end) o).

Definition with_config (c : value) (pg : Page) : Page :=
  {| dom := dom pg; body := body pg; computed := computed pg; config := c;
     googletag := googletag pg; apntag := apntag pg; console := console pg;
     output := output pg |}.

Definition with_console (c : option console_api) (pg : Page) : Page :=
  {| dom := dom pg; body := body pg; computed := computed pg; config := config pg;
     googletag := googletag pg; apntag := apntag pg; console := c;
     output := output pg |}.

Definition with_computed (f : elem -> option string) (pg : Page) : Page :=
  {| dom := dom pg; body := body pg; computed := f; config := config pg;
     googletag := googletag pg; apntag := apntag pg; console := console pg;
     output := output pg |}.

Definition with_googletag (g : option gpt_api) (pg : Page) : Page :=
  {| dom := dom pg; body := body pg; computed := computed pg; config := config pg;
     googletag := g; apntag := apntag pg; console := console pg;
     output := output pg |}.

(** [iframes[i].contentWindow === ev.source], with an exception counted as
    no match. *)
Definition source_matches (pg : Page) (ev : event) (f : elem) : bool :=
  match contentWindow pg f with
  | Ok w => bool_decide (w = ev_source ev)
  | Throw _ => false
  end.

(** The warning of the handler when no iframe is found. *)
Definition not_found_message (adId : value) : string :=
  "Received programmaticStretch message but could not locate the ad iframe (adId: "
  ++ to_string adId ++ ").".

(** ** A sample page *)

Module Sample.

Definition plain (tag id : string) : elem_data :=
  {| el_tag := tag; el_id := id; el_hidden := false;
     el_style_width := None; el_style_height := None;
     el_width := None; el_height := None; el_contentWindow := Ok None |}.

Definition ad_frame : elem_data :=
  {| el_tag := "iframe"; el_id := ""; el_hidden := false;
     el_style_width := None; el_style_height := None;
     el_width := Some (VStr "300"); el_height := Some (VStr "50");
     el_contentWindow := Ok (Some 7%nat) |}.

(** [<html><body><div id="sidebar"></div>
      <div id="div-gpt-ad-123"><iframe width="300" height="50"></iframe></div>
    </body></html>] *)
Definition doc : node :=
  Node (plain "html" "")
    [Node (plain "body" "")
       [Node (plain "div" "sidebar") [];
        Node (plain "div" "div-gpt-ad-123") [Node ad_frame []]]].

Definition slot_div : elem := [1; 0]%nat.
Definition frame : elem := [0; 1; 0]%nat.

Definition all_console : console_api :=
  {| has_log := true; has_warn := true; has_error := true |}.

Definition pg0 : Page :=
  {| dom := doc; body := [0%nat];
     computed := fun e => if decide (e = frame) then Some "90px" else Some "auto";
     config := VUndef; googletag := None; apntag := None;
     console := Some all_console; output := [] |}.

Definition st_of (pg : Page) : St := {| page := pg; calls := [] |}.

Definition payload (height : value) : value :=
  VObj [("message", VStr "Prebid Creative"); ("adId", VStr "ad-1");
        ("action", VStr "programmaticStretch"); ("height", height)].

(** A message posted by the creative in [frame]. *)
Definition ev_stretch : event :=
  {| ev_data := payload (VNum (Fin 250)); ev_message := VUndef; ev_source := Some 7%nat |}.

(** A message from a window that is not in the document. *)
Definition ev_elsewhere : event :=
  {| ev_data := payload (VNum (Fin 250)); ev_message := VUndef; ev_source := Some 8%nat |}.

Definition syntax_error : value := VObj [("name", VStr "SyntaxError")].

(** [JSON.parse] on the texts used below: the literals [null], [true] and
    [false] decode, a text that is no JSON throws. *)
Definition json (s : string) : res value :=
  if String.eqb s "null" then Ok VNull
  else if String.eqb s "true" then Ok (VBool true)
  else if String.eqb s "false" then Ok (VBool false)
  else Throw syntax_error.

(** Function 1 sets the iframe's height attribute and returns; function 2
    does the same and then throws an [Error]; the others do nothing. *)
Definition behaviour (f : nat) (args : list value) (pg : Page) : res value * Page :=
  match f with
  | 1%nat => (Ok VUndef, with_dom (alter_at (set_height (VStr "600")) (rev frame) (dom pg)) pg)
  | 2%nat => (Throw (VObj [("message", VStr "boom")]),
              with_dom (alter_at (set_height (VStr "600")) (rev frame) (dom pg)) pg)
  | _ => (Ok VUndef, pg)
  end.


(** A publisher tag with two slots; the second is targeted with
    [hb_adid = ad-1] and rendered in [div-gpt-ad-123]. *)
Definition gpt_sidebar_slot : gpt_slot :=
  {| getTargetingKeys := Ok ["pos"];
     getTargeting := fun k => if String.eqb k "pos" then Ok (Some ["left"]) else Ok (Some []);
     getSlotElementId := Ok "sidebar" |}.

Definition gpt_ad_slot : gpt_slot :=
  {| getTargetingKeys := Ok ["hb_bidder"; "hb_adid"; "hb_pb"];
     getTargeting := fun k =>
       if String.eqb k "hb_bidder" then Ok (Some ["acme"])
       else if String.eqb k "hb_adid" then Ok (Some ["ad-0"; "ad-1"])
       else Ok (Some []);
     getSlotElementId := Ok "div-gpt-ad-123" |}.

Definition gpt : gpt_api := {| getSlots := Ok [gpt_sidebar_slot; gpt_ad_slot] |}.

(** Events that are not for this script. *)
Definition ev_garbled : event :=
  {| ev_data := VStr "not json"; ev_message := VUndef; ev_source := Some 7%nat |}.

Definition ev_other_action : event :=
  {| ev_data := VObj [("message", VStr "Prebid Creative"); ("adId", VStr "ad-1");
                      ("action", VStr "resize")];
     ev_message := VUndef; ev_source := Some 7%nat |}.


(** A message that names an ad unit with no element in the document, from
    a window that is not in the document either. *)
Definition ev_unplaced : event :=
  {| ev_data := VObj [("message", VStr "Prebid Creative"); ("adId", VStr "ad-9");
                      ("action", VStr "programmaticStretch");
                      ("adUnitCode", VStr "div-gpt-ad-999")];
     ev_message := VUndef; ev_source := Some 8%nat |}.

Definition pg_disabled : Page := with_config (VObj [("enabled", VBool false)]) pg0.

Definition pg_disabled_no_console : Page := with_console None pg_disabled.







(** A publisher tag whose first slot is targeted with [ad-1] as well but
    rendered in [sidebar], which holds no iframe. *)
Definition gpt_sidebar_hit : gpt_slot :=
  {| getTargetingKeys := Ok ["hb_adid"];
     getTargeting := fun k => if String.eqb k "hb_adid" then Ok (Some ["ad-1"]) else Ok (Some []);
     getSlotElementId := Ok "sidebar" |}.

Definition gpt_shadowed : gpt_api := {| getSlots := Ok [gpt_sidebar_hit; gpt_ad_slot] |}.

(** A publisher tag whose first slot throws when asked for its keys. *)
Definition gpt_faulty_slot : gpt_slot :=
  {| getTargetingKeys := Throw (VStr "destroyed");
     getTargeting := fun _ => Ok (Some []);
     getSlotElementId := Ok "sidebar" |}.

Definition gpt_faulty : gpt_api := {| getSlots := Ok [gpt_faulty_slot; gpt_ad_slot] |}.

Definition sidebar : elem := [0; 0]%nat.


End Sample.

(** * Properties *)

Import Sample.

(** ** Values *)

Example parseInt_px : parseInt "90px" = Fin 90.
Proof. reflexivity. Qed.

Example parseInt_auto : parseInt "auto" = NaN.
Proof. reflexivity. Qed.

Example parseInt_signed : parseInt "  -12.5em" = Fin (-12).
Proof. reflexivity. Qed.

Lemma falsy_prop v k : truthy v = false -> prop v k = VUndef.
Proof. destruct v; simpl; congruence. Qed.

Lemma is_str_true v s : is_str v s = true <-> v = VStr s.
Proof.
  destruct v; simpl; try (split; [discriminate | congruence]).
  rewrite String.eqb_eq. split; congruence.
Qed.

Lemma is_str_false v s : is_str v s = false <-> v <> VStr s.
Proof.
  rewrite <- is_str_true. destruct (is_str v s); split; congruence.
Qed.

Lemma number_guard v : is_number v && gt_zero v = pos_number v.
Proof. destruct v; reflexivity. Qed.

Lemma slot_guard slotCfg :
  truthy slotCfg && is_number (prop slotCfg "height") && gt_zero (prop slotCfg "height")
  = pos_number (prop slotCfg "height").
Proof.
  rewrite <- andb_assoc, number_guard.
  destruct (truthy slotCfg) eqn:E; [reflexivity |].
  rewrite (falsy_prop _ _ E). reflexivity.
Qed.

(** ** [getDimension] *)

(** C9. [getDimension] maps a missing value ([undefined], [null]) and zero
    to ["100%"], and every number above zero to its decimal rendering
    followed by ["px"]; in particular 250 gives ["250px"]. *)
Theorem getDimension_full_or_px :
  getDimension (VNum (Fin 0)) = "100%"
  /\ getDimension VUndef = "100%"
  /\ getDimension VNull = "100%"
  /\ getDimension (VNum (Fin 250)) = "250px"
  /\ (forall n, num_pos n = true -> getDimension (VNum n) = num_to_string n ++ "px").
Proof.
  repeat split; try reflexivity.
  intros n Hn. unfold getDimension. simpl.
  destruct n as [| | |z]; simpl in *; try discriminate; try reflexivity.
  apply Z.ltb_lt in Hn.
  destruct (Z.eqb_spec z 0); [lia | reflexivity].
Qed.

Lemma getDimension_full_or_px_witness :
  num_pos (Fin 90) = true /\ getDimension (VNum (Fin 90)) = "90px".
Proof.
  split; [reflexivity |].
  destruct getDimension_full_or_px as (_ & _ & _ & _ & H).
  apply (H (Fin 90)). reflexivity.
Defined.

(** ** [resolveHeight] *)

Lemma resolveHeight_chain pg slotCfg fields iframe :
  resolveHeight pg slotCfg (VObj fields) (elem_value iframe)
  = Ok (height_by_priority (prop slotCfg "height") (prop (VObj fields) "height")
          (iframe ≫= computed pg)).
Proof.
  unfold resolveHeight, height_by_priority.
  rewrite slot_guard.
  destruct (pos_number (prop slotCfg "height")); [reflexivity |].
  unfold get_prop. cbn [nullish res_bind].
  rewrite number_guard.
  destruct (pos_number (prop (VObj fields) "height")); [reflexivity |].
  destruct iframe as [e|]; cbn; [| reflexivity].
  destruct (computed pg e) as [hs|]; [| reflexivity].
  destruct (num_pos (parseInt hs)); reflexivity.
Qed.

(** C1. For every slot configuration, every message payload object and
    every iframe (an element, or none), [resolveHeight] returns the height
    picked by the priority chain: the slot configuration's height if it is a
    number above zero, else the message's height if it is a number above
    zero, else the iframe's computed height read as an integer if above
    zero, else no height.  With 300, 250 and 90px all given the result is
    300; without the slot height it is 250; with the computed height alone
    it is 90; with none it is [null], which [getDimension] turns into the
    full ["100%"]. *)
Theorem resolveHeight_priority :
  (forall pg slotCfg fields iframe,
     resolveHeight pg slotCfg (VObj fields) (elem_value iframe)
     = Ok (height_by_priority (prop slotCfg "height") (prop (VObj fields) "height")
             (iframe ≫= computed pg)))
  /\ resolveHeight pg0 (VObj [("height", VNum (Fin 300))]) (payload (VNum (Fin 250)))
       (VElem frame) = Ok (VNum (Fin 300))
  /\ resolveHeight pg0 VNull (payload (VNum (Fin 250))) (VElem frame) = Ok (VNum (Fin 250))
  /\ resolveHeight pg0 VNull (payload VUndef) (VElem frame) = Ok (VNum (Fin 90))
  /\ resolveHeight pg0 VNull (payload VUndef) VNull = Ok VNull
  /\ resolveHeight (with_computed (fun _ => Some "auto") pg0) (VObj [("height", VNum (Fin 0))])
       (payload (VStr "250")) (VElem frame) = Ok VNull
  /\ getDimension VNull = "100%".
Proof.
  split; [exact resolveHeight_chain |].
  repeat split; reflexivity.
Qed.

(** C7 (as amended). [resolveHeight] changes nothing, and its result is
    determined by its three arguments together with what
    [window.getComputedStyle] reports for the iframe: on two pages that
    agree on that report, equal arguments give equal results, whatever else
    differs between the pages. *)
Theorem resolveHeight_depends_on_computed_style
  (pg1 pg2 : Page) (slotCfg data iframe : value)
  (Hsame : getComputedStyle pg1 iframe = getComputedStyle pg2 iframe) :
  resolveHeight pg1 slotCfg data iframe = resolveHeight pg2 slotCfg data iframe
  /\ (forall st, read (fun pg => resolveHeight pg slotCfg data iframe) st
                 = (resolveHeight (page st) slotCfg data iframe, st)).
Proof.
  split; [| reflexivity].
  unfold resolveHeight. rewrite Hsame. reflexivity.
Qed.

Lemma resolveHeight_depends_on_computed_style_witness :
  getComputedStyle pg0 (VElem frame) = getComputedStyle pg_disabled_no_console (VElem frame)
  /\ resolveHeight pg0 VNull (payload VUndef) (VElem frame)
     = resolveHeight pg_disabled_no_console VNull (payload VUndef) (VElem frame).
Proof.
  split; [reflexivity |].
  apply (resolveHeight_depends_on_computed_style pg0 pg_disabled_no_console VNull
           (payload VUndef) (VElem frame)).
  reflexivity.
Defined.

(** C7, as stated, fails: the same slot configuration, payload and iframe
    give 90 on a page where the iframe is rendered 90 pixels high and 120
    where it is rendered 120 pixels high. *)
Lemma resolveHeight_not_a_function_of_its_arguments :
  resolveHeight pg0 VNull (payload VUndef) (VElem frame) = Ok (VNum (Fin 90))
  /\ resolveHeight (with_computed (fun _ => Some "120px") pg0) VNull (payload VUndef)
       (VElem frame) = Ok (VNum (Fin 120))
  /\ resolveHeight pg0 VNull (payload VUndef) (VElem frame)
     <> resolveHeight (with_computed (fun _ => Some "120px") pg0) VNull (payload VUndef)
          (VElem frame).
Proof.
  repeat split; try reflexivity.
  vm_compute. discriminate.
Qed.

(** ** [findAdIframe] *)

Lemma findIframeBySource_loop_returns pg ev iframes :
  exists r, findIframeBySource_loop pg ev iframes = Ok r.
Proof.
  induction iframes as [|f rest IH]; simpl; [eauto |].
  destruct (contentWindow pg f) as [w|e]; simpl; [| exact IH].
  destruct (decide (w = ev_source ev)); simpl; eauto.
Qed.

Lemma res_catch_returns {A} (m : res A) (a : A) :
  exists r, res_catch m (fun _ => Ok a) = Ok r.
Proof. destruct m; simpl; eauto. Qed.

Lemma findIframeByGptAdId_returns pg adId :
  exists r, findIframeByGptAdId pg adId = Ok r.
Proof.
  unfold findIframeByGptAdId.
  destruct (negb (truthy adId)); [eauto |].
  destruct (res_catch_returns
              (match googletag pg with
               | Some g => slots <~ getSlots g; gpt_scan_slots pg adId slots
               | None => Ok None
               end) None) as [r ->].
  simpl. eauto.
Qed.

Lemma findIframeByApnTag_returns pg adUnitCode :
  exists r, findIframeByApnTag pg adUnitCode = Ok r.
Proof.
  unfold findIframeByApnTag.
  destruct (negb (truthy adUnitCode)); [eauto |].
  match goal with
  | |- context [res_catch ?m _] => destruct (res_catch_returns m None) as [r ->]
  end.
  simpl. eauto.
Qed.

Lemma lastResort_returns pg adUnitCode :
  exists r, lastResort pg adUnitCode = Ok r.
Proof.
  unfold lastResort.
  destruct (truthy adUnitCode); [| eauto].
  destruct (getElementById pg (to_string adUnitCode)); eauto.
Qed.

Lemma or_lookup_Ok a b r1 r2 :
  a = Ok r1 -> b = Ok r2 -> or_lookup a b = Ok (first_found [r1; r2]).
Proof. intros -> ->. destruct r1, r2; reflexivity. Qed.

Lemma or_lookup_found f b : or_lookup (Ok (Some f)) b = Ok (Some f).
Proof. reflexivity. Qed.

Lemma or_lookup_none b : or_lookup (Ok None) b = b.
Proof. reflexivity. Qed.

Lemma findAdIframe_chain pg ev adId adUnitCode :
  exists r1 r2 r3 r4,
    findIframeBySource pg ev = Ok r1
    /\ findIframeByGptAdId pg adId = Ok r2
    /\ findIframeByApnTag pg adUnitCode = Ok r3
    /\ lastResort pg adUnitCode = Ok r4
    /\ findAdIframe pg ev adId adUnitCode = Ok (first_found [r1; r2; r3; r4]).
Proof.
  destruct (findIframeBySource_loop_returns pg ev (querySelectorAll_iframe pg)) as [r1 H1].
  destruct (findIframeByGptAdId_returns pg adId) as [r2 H2].
  destruct (findIframeByApnTag_returns pg adUnitCode) as [r3 H3].
  destruct (lastResort_returns pg adUnitCode) as [r4 H4].
  exists r1, r2, r3, r4. repeat split; try assumption.
  unfold findAdIframe, findIframeBySource. rewrite H1, H2, H3, H4.
  destruct r1, r2, r3, r4; reflexivity.
Qed.

Lemma findAdIframe_returns pg ev adId adUnitCode :
  exists r, findAdIframe pg ev adId adUnitCode = Ok r.
Proof.
  destruct (findAdIframe_chain pg ev adId adUnitCode) as (r1 & r2 & r3 & r4 & H).
  exists (first_found [r1; r2; r3; r4]). apply H.
Qed.

Lemma gpt_scan_keys_app pg adId s ks1 ks2 :
  gpt_scan_keys pg adId s ks1 = Ok None ->
  gpt_scan_keys pg adId s (ks1 ++ ks2)%list = gpt_scan_keys pg adId s ks2.
Proof.
  induction ks1 as [|k ks1 IH]; simpl; [reflexivity |].
  destruct (getTargeting s k) as [values|e]; simpl; [| discriminate].
  destruct (targeting_has values adId); [| exact IH].
  destruct (getSlotElementId s) as [id|e]; simpl; [| discriminate].
  destruct (getElementById pg id); [discriminate | exact IH].
Qed.

Lemma gpt_scan_slots_app pg adId l1 l2 :
  gpt_scan_slots pg adId l1 = Ok None ->
  gpt_scan_slots pg adId (l1 ++ l2)%list = gpt_scan_slots pg adId l2.
Proof.
  induction l1 as [|s l1 IH]; simpl; [reflexivity |].
  destruct (getTargetingKeys s) as [keys|e]; simpl; [| discriminate].
  destruct (gpt_scan_keys pg adId s keys) as [[found|]|e]; simpl;
    [discriminate | exact IH | discriminate].
Qed.

Lemma targeting_has_In vs a : In a vs -> targeting_has (Some vs) (VStr a) = true.
Proof.
  intros Hin. simpl. apply existsb_exists. exists a. split; [assumption |].
  apply String.eqb_refl.
Qed.




(** ** Writes to the document *)

Lemma node_at_alter_same f path : forall t,
  node_data <$> node_at (alter_at f path t) path = f <$> (node_data <$> node_at t path).
Proof.
  induction path as [|i rest IH]; intros [d kids]; simpl; [reflexivity |].
  rewrite list_lookup_alter_eq.
  destruct (kids !! i) as [k|]; simpl; [apply IH | reflexivity].
Qed.

Lemma node_at_alter_other f path : forall other t,
  path <> other ->
  node_data <$> node_at (alter_at f path t) other = node_data <$> node_at t other.
Proof.
  induction path as [|i rest IH]; intros [|j other'] [d kids] Hne; simpl;
    try reflexivity; try congruence.
  destruct (decide (i = j)) as [->|Hij].
  - rewrite list_lookup_alter_eq.
    destruct (kids !! j) as [k|]; simpl; [| reflexivity].
    apply IH. congruence.
  - rewrite list_lookup_alter_ne by assumption. reflexivity.
Qed.

Lemma data_at_write_same f e pg :
  data_at (with_dom (alter_at f (rev e) (dom pg)) pg) e = f <$> data_at pg e.
Proof. unfold data_at. simpl. apply node_at_alter_same. Qed.

Lemma data_at_write_other f e e' pg :
  e <> e' ->
  data_at (with_dom (alter_at f (rev e) (dom pg)) pg) e' = data_at pg e'.
Proof.
  intros Hne. unfold data_at. simpl. apply node_at_alter_other.
  intros Hrev. apply Hne. apply (f_equal (@rev nat)) in Hrev.
  rewrite !rev_involutive in Hrev. exact Hrev.
Qed.

Lemma node_at_app t p q :
  node_at t (p ++ q)%list = node_at t p ≫= fun k => node_at k q.
Proof.
  revert t. induction p as [|i p IH]; intros [d kids]; simpl; [reflexivity |].
  destruct (kids !! i) as [k|]; simpl; [apply IH | reflexivity].
Qed.


Lemma cons_neq {A} (x : A) (l : list A) : x :: l <> l.
Proof.
  intros H. apply (f_equal (@List.length A)) in H. simpl in H. lia.
Qed.

(** ** Found iframes are elements of the document *)

Lemma node_induction (P : node -> Prop) :
  (forall d kids, Forall P kids -> P (Node d kids)) -> forall t, P t.
Proof.
  intros step. fix IH 1. intros [d kids]. apply step.
  induction kids as [|k kids IHkids]; constructor; [apply IH | exact IHkids].
Qed.

Lemma preorder_sound : forall t at_ e x,
  In (e, x) (preorder t at_) ->
  exists path, e = (rev path ++ at_)%list /\ node_data <$> node_at t path = Some x.
Proof.
  induction t as [d kids IH] using node_induction. intros at_ e x Hin.
  cbn [preorder] in Hin. destruct Hin as [Heq | Hin].
  { inversion Heq; subst. exists []. split; reflexivity. }
  assert (forall ks i,
            Forall (fun t => forall at_ e x, In (e, x) (preorder t at_) ->
              exists path, e = (rev path ++ at_)%list
                           /\ node_data <$> node_at t path = Some x) ks ->
            In (e, x)
              ((fix children (ks : list node) (i : nat) : list (elem * elem_data) :=
                  match ks with
                  | [] => []
                  | k :: ks' => (preorder k (i :: at_) ++ children ks' (S i))%list
                  end) ks i) ->
            exists j k path,
              ks !! j = Some k /\ e = (rev path ++ (i + j)%nat :: at_)%list
              /\ node_data <$> node_at k path = Some x) as Hkids.
  { induction ks as [|k ks IHks]; intros i Hall Hin'; [destruct Hin' |].
    apply Forall_cons in Hall as [Hk Hall].
    apply in_app_or in Hin' as [Hin' | Hin'].
    - destruct (Hk _ _ _ Hin') as (path & He & Hx).
      exists 0%nat, k, path. rewrite Nat.add_0_r. auto.
    - destruct (IHks (S i) Hall Hin') as (j & k' & path & Hj & He & Hx).
      exists (S j), k', path. rewrite Nat.add_succ_r. auto. }
  destruct (Hkids kids 0%nat IH Hin) as (j & k & path & Hj & He & Hx).
  exists (j :: path). simpl. rewrite Hj. split; [| exact Hx].
  rewrite He. rewrite <- app_assoc. reflexivity.
Qed.

Lemma queried_exists pg e x : In (e, x) (preorder (dom pg) []) -> data_at pg e = Some x.
Proof.
  intros Hin. destruct (preorder_sound _ _ _ _ Hin) as (path & -> & Hx).
  unfold data_at. rewrite app_nil_r, rev_involutive. exact Hx.
Qed.










(** ** [defaultResize] *)

Lemma output_write f e pg : output (with_dom (alter_at f (rev e) (dom pg)) pg) = output pg.
Proof. reflexivity. Qed.

Lemma defaultResize_run iframe width height st :
  exists st',
    defaultResize iframe width height st = (Ok tt, st')
    /\ calls st' = calls st
    /\ output (page st') = output (page st)
    /\ console (page st') = console (page st)
    /\ data_at (page st') iframe
       = (fun d => reattribute width height (restyle width height d)) <$> data_at (page st) iframe
    /\ (forall parent, parentElement iframe = Some parent ->
          data_at (page st') parent = restyle width height <$> data_at (page st) parent).
Proof.
  unfold defaultResize, forEach, bind, write_elem, update, ret. cbn [page calls].
  destruct iframe as [|i up]; cbn [parentElement].
  - destruct (truthy width) eqn:Hw, (truthy height) eqn:Hh; eexists;
      (split; [reflexivity |]);
      cbn [page calls]; repeat split; try (intros ? [=]);
      rewrite ?data_at_write_same; unfold reattribute, restyle; rewrite ?Hw, ?Hh;
      destruct (data_at (page st) []); reflexivity.
  - assert (i :: up <> up) as Hne by apply cons_neq.
    assert (up <> i :: up) as Hne' by (intros H; symmetry in H; contradiction).
    destruct (truthy width) eqn:Hw, (truthy height) eqn:Hh; eexists;
      (split; [reflexivity |]); cbn [page calls]; repeat split;
      try (intros parent [= <-]);
      rewrite ?data_at_write_same, ?(data_at_write_other _ _ _ _ Hne),
        ?(data_at_write_other _ _ _ _ Hne'), ?data_at_write_same,
        ?(data_at_write_other _ _ _ _ Hne), ?data_at_write_same;
      unfold reattribute, restyle; rewrite ?Hw, ?Hh.
    all: try (destruct (data_at (page st) (i :: up)); reflexivity).
    all: try (destruct (data_at (page st) up); reflexivity).
Qed.

(** ** The handler *)

Section HandlerProperties.

Variable JSON_parse : string -> res value.
Variable call : nat -> list value -> Page -> res value * Page.

Local Notation handle := (onMessage JSON_parse call).
Local Notation decoded := (decode JSON_parse).
Local Notation invoked := (invoke call).

Lemma decode_string s : decoded (VStr s) = match JSON_parse s with Ok d => Some d | Throw _ => None end.
Proof. reflexivity. Qed.

Lemma not_stretch_false data :
  not_stretch data = false ->
  exists fields, data = VObj fields.
Proof.
  unfold not_stretch. intros H.
  apply orb_false_elim in H as [H _]. apply orb_false_elim in H as [_ H].
  apply negb_false_iff, is_str_true in H.
  destruct data; simpl in H; try discriminate. eauto.
Qed.

Lemma not_stretch_true data :
  prop data "message" <> VStr MESSAGE_CREATIVE
  \/ prop data "action" <> VStr ACTION_PROGRAMMATIC_STRETCH ->
  not_stretch data = true.
Proof.
  unfold not_stretch. intros [H|H]; apply is_str_false in H; rewrite H;
    destruct (truthy data); simpl; try reflexivity.
  all: destruct (is_str (prop data "message") MESSAGE_CREATIVE); reflexivity.
Qed.

Lemma is_false_true v : is_false v = true <-> v = VBool false.
Proof.
  destruct v as [| |[|]| | | | | |]; simpl; split; congruence.
Qed.

(** C4. An event whose string payload fails JSON decoding, or whose decoded
    payload lacks one of the two sentinels ([message] other than
    ["Prebid Creative"], or [action] other than ["programmaticStretch"]),
    is dropped: the handler returns and leaves the whole state as it was,
    so that the document is not touched, nothing is written to the console
    and no callback is invoked. *)
Theorem onMessage_ignores_foreign_events (ev : event) (st : St) :
  (exists s e, raw_of ev = VStr s /\ JSON_parse s = Throw e)
  \/ (exists data, decoded (raw_of ev) = Some data
        /\ (prop data "message" <> VStr MESSAGE_CREATIVE
            \/ prop data "action" <> VStr ACTION_PROGRAMMATIC_STRETCH)) ->
  handle ev st = (Ok tt, st).
Proof.
  intros [(s & e & Hraw & Hparse) | (data & Hdec & Hfields)]; unfold onMessage.
  - rewrite Hraw, decode_string, Hparse. reflexivity.
  - rewrite Hdec, (not_stretch_true _ Hfields). reflexivity.
Qed.


(** C6 (as amended). For a valid programmaticStretch message received while
    [enabled] is [false], the handler stops after the warning: the document
    and everything else but the console output stay as they were, no
    callback is invoked, and the console receives exactly one line, a
    warning, when [console.warn] exists, and nothing when it does not. *)
Theorem onMessage_disabled (ev : event) (st : St) (data : value) :
  decoded (raw_of ev) = Some data ->
  not_stretch data = false ->
  prop (getConfig (page st)) "enabled" = VBool false ->
  let msg := "Received programmaticStretch message but script is globally disabled." in
  handle ev st
  = (Ok tt, {| page := console_write Warn has_warn msg (page st); calls := calls st |})
  /\ dom (page (snd (handle ev st))) = dom (page st)
  /\ (forall c, console (page st) = Some c -> has_warn c = true ->
        output (page (snd (handle ev st)))
        = (output (page st) ++ [(Warn, [PREFIX; msg])])%list)
  /\ (console (page st) = None
      \/ (exists c, console (page st) = Some c /\ has_warn c = false) ->
      output (page (snd (handle ev st))) = output (page st)).
Proof.
  intros Hdec Hvalid Hoff msg.
  assert (handle ev st
          = (Ok tt, {| page := console_write Warn has_warn msg (page st);
                       calls := calls st |})) as Hrun.
  { unfold onMessage. rewrite Hdec, Hvalid.
    unfold bind, gets. cbn [page]. rewrite Hoff. reflexivity. }
  split; [exact Hrun |]. rewrite Hrun. cbn [snd page].
  unfold console_write.
  split; [| split].
  - destruct (console (page st)) as [c|]; [destruct (has_warn c) |]; reflexivity.
  - intros c Hc Hw. rewrite Hc, Hw. reflexivity.
  - intros [Hc | (c & Hc & Hw)]; rewrite Hc; [| rewrite Hw]; reflexivity.
Qed.

Lemma is_false_false v : v <> VBool false -> is_false v = false.
Proof. destruct v as [| |[|]| | | | | |]; simpl; congruence. Qed.

Lemma onMessage_resize ev st data iframe :
  decoded (raw_of ev) = Some data ->
  not_stretch data = false ->
  prop (getConfig (page st)) "enabled" <> VBool false ->
  findAdIframe (page st) ev (or_else (prop data "adId") VNull)
    (or_else (prop data "adUnitCode") VNull) = Ok (Some iframe) ->
  handle ev st
  = match selected_callback (page st) data iframe with
    | Some fv =>
        try_catch
          (bind (invoked fv (callback_args (page st) ev data iframe)) (fun _ => ret tt))
          (fun e => logError (threw_message e)) st
    | None =>
        bind (defaultResize iframe VNull (resolved_height (page st) data iframe))
          (fun _ => logInfo (applied_message (or_else (prop data "adId") VNull)
                               (resolved_height (page st) data iframe))) st
    end.
Proof.
  intros Hdec Hvalid Hon Hfind.
  destruct (not_stretch_false _ Hvalid) as [fields ->].
  unfold onMessage. rewrite Hdec, Hvalid.
  unfold bind at 1. unfold gets at 1. cbn [page].
  rewrite (is_false_false _ Hon).
  unfold bind at 1. unfold read at 1. rewrite Hfind.
  assert ((if negb (truthy (or_else (prop (VObj fields) "adUnitCode") VNull))
           then gets (fun pg => guessAdUnitCode pg (Some iframe))
           else ret (or_else (prop (VObj fields) "adUnitCode") VNull)) st
          = (Ok (resolved_code (page st) (VObj fields) iframe), st)) as Hcode.
  { unfold resolved_code.
    destruct (negb (truthy (or_else (prop (VObj fields) "adUnitCode") VNull)));
      reflexivity. }
  unfold bind at 1. rewrite Hcode.
  unfold bind at 1. unfold gets at 1.
  unfold bind at 1. unfold read at 1.
  change (VElem iframe) with (elem_value (Some iframe)) at 1.
  rewrite resolveHeight_chain.
  change (getSlotConfig (page st) (resolved_code (page st) (VObj fields) iframe))
    with (resolved_slot (page st) (VObj fields) iframe).
  change (height_by_priority _ _ _) with (resolved_height (page st) (VObj fields) iframe).
  unfold selected_callback, callback_args.
  destruct (truthy (resolved_slot (page st) (VObj fields) iframe)
            && is_function (prop (resolved_slot (page st) (VObj fields) iframe)
                              "resizeFunction")); [reflexivity |].
  destruct (is_function (prop (getConfig (page st)) "resizeFunction")); reflexivity.
Qed.

Lemma selected_function_invoke fv f args st :
  fv = VFun f ->
  try_catch (bind (invoked fv args) (fun _ => ret tt)) (fun e => logError (threw_message e)) st
  = match call f args (page st) with
    | (Ok _, pg') => (Ok tt, {| page := pg'; calls := (calls st ++ [(f, args)])%list |})
    | (Throw e, pg') =>
        (Ok tt, {| page := console_write Error has_error (threw_message e) pg';
                   calls := (calls st ++ [(f, args)])%list |})
    end.
Proof.
  intros ->. unfold try_catch, bind, invoke.
  destruct (call f args (page st)) as [[v|e] pg']; reflexivity.
Qed.






End HandlerProperties.

(** ** The handler on the sample page *)

Lemma onMessage_ignores_foreign_events_witness :
  ((exists s e, raw_of ev_garbled = VStr s /\ json s = Throw e)
   \/ (exists data, decode json (raw_of ev_garbled) = Some data
         /\ (prop data "message" <> VStr MESSAGE_CREATIVE
             \/ prop data "action" <> VStr ACTION_PROGRAMMATIC_STRETCH)))
  /\ onMessage json behaviour ev_garbled (st_of pg0) = (Ok tt, st_of pg0).
Proof.
  assert ((exists s e, raw_of ev_garbled = VStr s /\ json s = Throw e)
          \/ (exists data, decode json (raw_of ev_garbled) = Some data
                /\ (prop data "message" <> VStr MESSAGE_CREATIVE
                    \/ prop data "action" <> VStr ACTION_PROGRAMMATIC_STRETCH))) as H.
  { left. exists "not json", syntax_error. split; reflexivity. }
  split; [exact H |].
  exact (onMessage_ignores_foreign_events json behaviour ev_garbled (st_of pg0) H).
Defined.

Example onMessage_ignores_other_action :
  onMessage json behaviour ev_other_action (st_of pg0) = (Ok tt, st_of pg0).
Proof. reflexivity. Qed.


Lemma onMessage_disabled_witness :
  decode json (raw_of ev_stretch) = Some (payload (VNum (Fin 250)))
  /\ not_stretch (payload (VNum (Fin 250))) = false
  /\ prop (getConfig pg_disabled) "enabled" = VBool false
  /\ dom (page (snd (onMessage json behaviour ev_stretch (st_of pg_disabled)))) = doc
  /\ output (page (snd (onMessage json behaviour ev_stretch (st_of pg_disabled))))
     = [(Warn, [PREFIX;
                "Received programmaticStretch message but script is globally disabled."])].
Proof.
  split; [reflexivity |]. split; [reflexivity |]. split; [reflexivity |].
  destruct (onMessage_disabled json behaviour ev_stretch (st_of pg_disabled)
              (payload (VNum (Fin 250))) eq_refl eq_refl eq_refl)
    as (_ & Hdom & Hout & _).
  split; [exact Hdom |].
  exact (Hout all_console eq_refl eq_refl).
Defined.

(** C6, as stated, fails where there is no [console]: the message is valid,
    [enabled] is [false], and the handler produces no warning at all. *)
Lemma onMessage_disabled_no_console :
  decode json (raw_of ev_stretch) = Some (payload (VNum (Fin 250)))
  /\ not_stretch (payload (VNum (Fin 250))) = false
  /\ prop (getConfig pg_disabled_no_console) "enabled" = VBool false
  /\ lines_of Warn
       (output (page (snd (onMessage json behaviour ev_stretch
                             (st_of pg_disabled_no_console))))) = []
  /\ ~ (exists line,
          output (page (snd (onMessage json behaviour ev_stretch
                               (st_of pg_disabled_no_console))))
          = (output pg_disabled_no_console ++ [(Warn, line)])%list).
Proof.
  repeat split; try reflexivity.
  intros [line H]. vm_compute in H. discriminate.
Qed.






(** Without any height the iframe's [height] attribute keeps its value and
    the inline height is the full ["100%"]. *)
Example defaultResize_without_height :
  data_at (page (snd (defaultResize frame VNull VNull (st_of pg0)))) frame
  = Some {| el_tag := "iframe"; el_id := ""; el_hidden := false;
            el_style_width := Some "100%"; el_style_height := Some "100%";
            el_width := Some (VStr "100%"); el_height := Some (VStr "50");
            el_contentWindow := Ok (Some 7%nat) |}.
Proof. reflexivity. Qed.

(** * Further properties of the script *)

(** ** Lookups *)

Lemma findIframeBySource_find pg ev :
  findIframeBySource pg ev = Ok (find (source_matches pg ev) (querySelectorAll_iframe pg)).
Proof.
  unfold findIframeBySource.
  induction (querySelectorAll_iframe pg) as [|f rest IH]; [reflexivity |].
  cbn [findIframeBySource_loop find]. unfold source_matches at 1.
  destruct (contentWindow pg f) as [w|e]; cbn [res_catch res_bind]; [| exact IH].
  destruct (decide (w = ev_source ev)) as [Hw|Hw].
  - rewrite bool_decide_true by assumption. reflexivity.
  - rewrite bool_decide_false by assumption. exact IH.
Qed.

Lemma source_matches_false pg ev f :
  contentWindow pg f <> Ok (ev_source ev) -> source_matches pg ev f = false.
Proof.
  unfold source_matches. destruct (contentWindow pg f) as [w|e]; [| reflexivity].
  intros H. apply bool_decide_eq_false. congruence.
Qed.

Lemma source_matches_true pg ev f :
  contentWindow pg f = Ok (ev_source ev) -> source_matches pg ev f = true.
Proof.
  unfold source_matches. intros ->. apply bool_decide_eq_true. reflexivity.
Qed.

Lemma find_skips {A} (P : A -> bool) before x after :
  (forall y, In y before -> P y = false) -> P x = true ->
  find P (before ++ x :: after)%list = Some x.
Proof.
  intros Hb Hx. induction before as [|y before IH]; simpl.
  - rewrite Hx. reflexivity.
  - rewrite (Hb y (or_introl eq_refl)). apply IH. intros z Hz. apply Hb. right. exact Hz.
Qed.

Lemma find_none {A} (P : A -> bool) l :
  (forall y, In y l -> P y = false) -> find P l = None.
Proof.
  intros Hl. induction l as [|y l IH]; simpl; [reflexivity |].
  rewrite (Hl y (or_introl eq_refl)). apply IH. intros z Hz. apply Hl. right. exact Hz.
Qed.

(** X1. [findIframeBySource] returns the first iframe of the document, in
    document order, whose [contentWindow] is the event's source; an iframe
    whose [contentWindow] differs, or throws when read, is passed over
    without ending the scan, and [null] is returned when none matches. *)
Theorem findIframeBySource_document_order :
  (forall pg ev,
     findIframeBySource pg ev
     = Ok (find (source_matches pg ev) (querySelectorAll_iframe pg)))
  /\ (forall pg ev before f after,
        querySelectorAll_iframe pg = (before ++ f :: after)%list ->
        (forall g, In g before -> contentWindow pg g <> Ok (ev_source ev)) ->
        contentWindow pg f = Ok (ev_source ev) ->
        findIframeBySource pg ev = Ok (Some f))
  /\ (forall pg ev,
        (forall g, In g (querySelectorAll_iframe pg) ->
                   contentWindow pg g <> Ok (ev_source ev)) ->
        findIframeBySource pg ev = Ok None).
Proof.
  split; [exact findIframeBySource_find |]. split.
  - intros pg ev before f after Hall Hbefore Hf.
    rewrite findIframeBySource_find, Hall. f_equal. apply find_skips.
    + intros g Hg. apply source_matches_false, Hbefore, Hg.
    + apply source_matches_true, Hf.
  - intros pg ev Hall. rewrite findIframeBySource_find. f_equal. apply find_none.
    intros g Hg. apply source_matches_false, Hall, Hg.
Qed.

Lemma children_sound at_ e x : forall ks i,
  In (e, x)
    ((fix children (ks : list node) (i : nat) : list (elem * elem_data) :=
        match ks with
        | [] => []
        | k :: ks' => (preorder k (i :: at_) ++ children ks' (S i))%list
        end) ks i) ->
  exists j k path,
    ks !! j = Some k /\ e = (rev path ++ (i + j)%nat :: at_)%list
    /\ node_data <$> node_at k path = Some x.
Proof.
  induction ks as [|k ks IH]; intros i Hin; [destruct Hin |].
  apply in_app_or in Hin as [Hin | Hin].
  - destruct (preorder_sound _ _ _ _ Hin) as (path & He & Hx).
    exists 0%nat, k, path. rewrite Nat.add_0_r. auto.
  - destruct (IH (S i) Hin) as (j & k' & path & Hj & He & Hx).
    exists (S j), k', path. rewrite Nat.add_succ_r. auto.
Qed.

Lemma descendants_sound t at_ e x :
  In (e, x) (tail (preorder t at_)) ->
  exists path, path <> []
    /\ e = (rev path ++ at_)%list /\ node_data <$> node_at t path = Some x.
Proof.
  destruct t as [d kids]. cbn [preorder tail]. intros Hin.
  destruct (children_sound _ _ _ _ _ Hin) as (j & k & path & Hj & He & Hx).
  exists (j :: path). split; [discriminate |]. simpl. rewrite Hj.
  split; [| exact Hx]. rewrite He, <- app_assoc. reflexivity.
Qed.

Lemma querySelector_iframe_sound pg el f :
  querySelector_iframe pg el = Some f ->
  exists d below,
    data_at pg f = Some d /\ is_iframe d = true /\ el_hidden d = false
    /\ below <> [] /\ f = (below ++ el)%list.
Proof.
  unfold querySelector_iframe.
  destruct (node_at (dom pg) (rev el)) as [t|] eqn:Ht; [| discriminate].
  destruct (find _ _) as [[e x]|] eqn:Hfind; [| discriminate].
  intros [= <-]. apply find_some in Hfind as [Hin Hp]. cbn [snd] in Hp.
  apply andb_true_iff in Hp as [Hif Hvis]. apply negb_true_iff in Hvis.
  destruct (descendants_sound _ _ _ _ Hin) as (path & Hne & -> & Hx).
  exists x, (rev path). repeat split; try assumption.
  - unfold data_at. simpl.
    rewrite rev_app_distr, rev_involutive, node_at_app, Ht. exact Hx.
  - intros Hnil. apply Hne. apply (f_equal (@rev nat)) in Hnil.
    rewrite rev_involutive in Hnil. exact Hnil.
Qed.

Lemma findIframeBySource_sound pg ev f :
  findIframeBySource pg ev = Ok (Some f) ->
  exists d, data_at pg f = Some d /\ is_iframe d = true
            /\ contentWindow pg f = Ok (ev_source ev).
Proof.
  rewrite findIframeBySource_find. intros [= Hfind].
  apply find_some in Hfind as [Hin Hm].
  unfold querySelectorAll_iframe in Hin. apply in_map_iff in Hin as ([e x] & <- & Hin).
  apply filter_In in Hin as [Hin Hif]. cbn [fst snd] in *.
  exists x. split; [apply queried_exists; exact Hin |]. split; [exact Hif |].
  unfold source_matches in Hm. destruct (contentWindow pg e) as [w|]; [| discriminate].
  apply bool_decide_eq_true in Hm. congruence.
Qed.

Lemma gpt_scan_keys_sound pg adId s keys r :
  gpt_scan_keys pg adId s keys = Ok (Some r) ->
  exists id el, getSlotElementId s = Ok id /\ getElementById pg id = Some el
                /\ r = querySelector_iframe pg el.
Proof.
  induction keys as [|k ks IH]; simpl; [discriminate |].
  destruct (getTargeting s k) as [values|e]; simpl; [| discriminate].
  destruct (targeting_has values adId); [| exact IH].
  destruct (getSlotElementId s) as [id|e]; simpl; [| discriminate].
  destruct (getElementById pg id) as [el|] eqn:Hel; [| exact IH].
  intros [= <-]. eauto.
Qed.

Lemma gpt_scan_slots_sound pg adId slots r :
  gpt_scan_slots pg adId slots = Ok (Some r) ->
  exists s id el, In s slots /\ getSlotElementId s = Ok id
                  /\ getElementById pg id = Some el /\ r = querySelector_iframe pg el.
Proof.
  induction slots as [|s rest IH]; simpl; [discriminate |].
  destruct (getTargetingKeys s) as [keys|e]; simpl; [| discriminate].
  destruct (gpt_scan_keys pg adId s keys) as [[found|]|e] eqn:Hkeys; simpl;
    [| | discriminate].
  - intros [= <-]. destruct (gpt_scan_keys_sound _ _ _ _ _ Hkeys) as (id & el & H).
    exists s, id, el. intuition.
  - intros H. destruct (IH H) as (s' & id & el & Hin & H').
    exists s', id, el. intuition.
Qed.

Lemma findIframeByGptAdId_sound pg adId f :
  findIframeByGptAdId pg adId = Ok (Some f) ->
  exists el, querySelector_iframe pg el = Some f.
Proof.
  unfold findIframeByGptAdId. destruct (negb (truthy adId)); [discriminate |].
  destruct (googletag pg) as [g|]; simpl; [| discriminate].
  destruct (getSlots g) as [slots|e]; simpl; [| discriminate].
  destruct (gpt_scan_slots pg adId slots) as [[[found|]|]|e] eqn:Hscan; simpl;
    try discriminate.
  intros [= ->].
  destruct (gpt_scan_slots_sound _ _ _ _ Hscan) as (s & id & el & _ & _ & _ & H).
  eauto.
Qed.

Lemma findIframeByApnTag_sound pg code f :
  findIframeByApnTag pg code = Ok (Some f) ->
  exists el, querySelector_iframe pg el = Some f.
Proof.
  unfold findIframeByApnTag. destruct (negb (truthy code)); [discriminate |].
  destruct (apntag pg) as [a|]; simpl; [| discriminate].
  destruct (getTag a code) as [tag|e]; simpl; [| discriminate].
  destruct (truthy (and_then tag (prop tag "targetId"))); simpl; [| discriminate].
  destruct (getElementById pg _) as [el|]; simpl; [| discriminate].
  intros [= H]. eauto.
Qed.

Lemma lastResort_sound pg code f :
  lastResort pg code = Ok (Some f) ->
  exists el, querySelector_iframe pg el = Some f.
Proof.
  unfold lastResort. destruct (truthy code); [| discriminate].
  destruct (getElementById pg _) as [el|]; [| discriminate].
  intros [= H]. eauto.
Qed.

(** X2. Whatever [findAdIframe] returns is an iframe element of the
    document; it is the sender of the message, or a visible iframe strictly
    inside some element. *)
Theorem findAdIframe_finds_iframes pg ev adId adUnitCode f :
  findAdIframe pg ev adId adUnitCode = Ok (Some f) ->
  exists d,
    data_at pg f = Some d
    /\ is_iframe d = true
    /\ (contentWindow pg f = Ok (ev_source ev)
        \/ (el_hidden d = false
            /\ exists el below, below <> [] /\ f = (below ++ el)%list
                 /\ querySelector_iframe pg el = Some f)).
Proof.
  destruct (findAdIframe_chain pg ev adId adUnitCode)
    as (r1 & r2 & r3 & r4 & H1 & H2 & H3 & H4 & ->).
  intros [= Hfirst].
  assert (forall el, querySelector_iframe pg el = Some f ->
            exists d, data_at pg f = Some d /\ is_iframe d = true
              /\ (contentWindow pg f = Ok (ev_source ev)
                  \/ (el_hidden d = false
                      /\ exists el below, below <> [] /\ f = (below ++ el)%list
                           /\ querySelector_iframe pg el = Some f))) as Hq.
  { intros el Hel.
    destruct (querySelector_iframe_sound _ _ _ Hel) as (d & below & Hd & Hif & Hvis & Hne & Hf).
    exists d. split; [exact Hd |]. split; [exact Hif |]. right.
    split; [exact Hvis |]. exists el, below. auto. }
  destruct r1 as [f1|].
  { inversion Hfirst; subst.
    destruct (findIframeBySource_sound _ _ _ H1) as (d & Hd & Hif & Hw). eauto. }
  destruct r2 as [f2|].
  { inversion Hfirst; subst. destruct (findIframeByGptAdId_sound _ _ _ H2) as [el Hel]. eauto. }
  destruct r3 as [f3|].
  { inversion Hfirst; subst. destruct (findIframeByApnTag_sound _ _ _ H3) as [el Hel]. eauto. }
  destruct r4 as [f4|]; [| discriminate].
  inversion Hfirst; subst. destruct (lastResort_sound _ _ _ H4) as [el Hel]. eauto.
Qed.

Lemma findAdIframe_finds_iframes_witness :
  findAdIframe (with_googletag (Some gpt) pg0) ev_elsewhere (VStr "ad-1") VNull
  = Ok (Some frame)
  /\ exists d,
       data_at (with_googletag (Some gpt) pg0) frame = Some d
       /\ is_iframe d = true
       /\ (contentWindow (with_googletag (Some gpt) pg0) frame = Ok (ev_source ev_elsewhere)
           \/ (el_hidden d = false
               /\ exists el below, below <> [] /\ frame = (below ++ el)%list
                    /\ querySelector_iframe (with_googletag (Some gpt) pg0) el = Some frame)).
Proof.
  split; [reflexivity |].
  apply (findAdIframe_finds_iframes (with_googletag (Some gpt) pg0) ev_elsewhere
           (VStr "ad-1") VNull frame).
  reflexivity.
Defined.

(** X3. A message that carries neither [adId] nor [adUnitCode] can only be
    placed by its source window. *)
Theorem findAdIframe_without_ids pg ev adId adUnitCode :
  truthy adId = false -> truthy adUnitCode = false ->
  findIframeByGptAdId pg adId = Ok None
  /\ findIframeByApnTag pg adUnitCode = Ok None
  /\ lastResort pg adUnitCode = Ok None
  /\ findAdIframe pg ev adId adUnitCode = findIframeBySource pg ev.
Proof.
  intros Ha Hc.
  assert (findIframeByGptAdId pg adId = Ok None) as H2
    by (unfold findIframeByGptAdId; rewrite Ha; reflexivity).
  assert (findIframeByApnTag pg adUnitCode = Ok None) as H3
    by (unfold findIframeByApnTag; rewrite Hc; reflexivity).
  assert (lastResort pg adUnitCode = Ok None) as H4
    by (unfold lastResort; rewrite Hc; reflexivity).
  repeat split; try assumption.
  unfold findAdIframe. rewrite H2, H3, H4.
  destruct (findIframeBySource pg ev) as [[f|]|e]; reflexivity.
Qed.

Lemma findAdIframe_without_ids_witness :
  truthy VNull = false
  /\ findAdIframe (with_googletag (Some gpt) pg0) ev_stretch VNull VNull
     = findIframeBySource (with_googletag (Some gpt) pg0) ev_stretch.
Proof.
  split; [reflexivity |].
  apply (findAdIframe_without_ids (with_googletag (Some gpt) pg0) ev_stretch VNull VNull);
    reflexivity.
Defined.

Lemma gpt_scan_keys_no_string pg adId s keys :
  (forall a, adId <> VStr a) ->
  gpt_scan_keys pg adId s keys = Ok None
  \/ exists e, gpt_scan_keys pg adId s keys = Throw e.
Proof.
  intros Hns. induction keys as [|k ks IH]; simpl; [auto |].
  destruct (getTargeting s k) as [values|e]; simpl; [| eauto].
  assert (targeting_has values adId = false) as ->; [| exact IH].
  destruct values, adId; try reflexivity. exfalso. eapply Hns. reflexivity.
Qed.

Lemma gpt_scan_slots_no_string pg adId slots :
  (forall a, adId <> VStr a) ->
  gpt_scan_slots pg adId slots = Ok None
  \/ exists e, gpt_scan_slots pg adId slots = Throw e.
Proof.
  intros Hns. induction slots as [|s rest IH]; simpl; [auto |].
  destruct (getTargetingKeys s) as [keys|e]; simpl; [| eauto].
  destruct (gpt_scan_keys_no_string pg adId s keys Hns) as [-> | [e ->]]; simpl; eauto.
Qed.

(** X4. The GPT lookup compares the ad id with [===] against targeting
    strings: an [adId] that is not a string (a number, say) never matches. *)
Theorem findIframeByGptAdId_needs_string pg adId :
  (forall a, adId <> VStr a) -> findIframeByGptAdId pg adId = Ok None.
Proof.
  intros Hns. unfold findIframeByGptAdId.
  destruct (negb (truthy adId)); [reflexivity |].
  destruct (googletag pg) as [g|]; [| reflexivity].
  destruct (getSlots g) as [slots|e]; [| reflexivity]. cbn [res_bind].
  destruct (gpt_scan_slots_no_string pg adId slots Hns) as [-> | [e ->]]; reflexivity.
Qed.

Lemma findIframeByGptAdId_needs_string_witness :
  (forall a, VNum (Fin 5) <> VStr a)
  /\ findIframeByGptAdId (with_googletag (Some gpt) pg0) (VNum (Fin 5)) = Ok None.
Proof.
  assert (forall a, VNum (Fin 5) <> VStr a) as H by (intros a; discriminate).
  split; [exact H |].
  exact (findIframeByGptAdId_needs_string (with_googletag (Some gpt) pg0) (VNum (Fin 5)) H).
Defined.

Lemma findIframeByGptAdId_first_hit pg g a before s after kbefore k kafter vs id el :
  a <> "" ->
  googletag pg = Some g ->
  getSlots g = Ok (before ++ s :: after)%list ->
  gpt_scan_slots pg (VStr a) before = Ok None ->
  getTargetingKeys s = Ok (kbefore ++ k :: kafter)%list ->
  gpt_scan_keys pg (VStr a) s kbefore = Ok None ->
  getTargeting s k = Ok (Some vs) ->
  In a vs ->
  getSlotElementId s = Ok id ->
  getElementById pg id = Some el ->
  findIframeByGptAdId pg (VStr a) = Ok (querySelector_iframe pg el).
Proof.
  intros Ha Hg Hslots Hbefore Hkeys Hkbefore Hvals Hin Hid Hel.
  unfold findIframeByGptAdId.
  assert (truthy (VStr a) = true) as ->.
  { simpl. destruct (String.eqb_spec a ""); [contradiction | reflexivity]. }
  rewrite Hg, Hslots. cbn [negb res_bind].
  rewrite (gpt_scan_slots_app _ _ _ _ Hbefore).
  cbn [gpt_scan_slots]. rewrite Hkeys. cbn [res_bind].
  rewrite (gpt_scan_keys_app _ _ _ _ _ Hkbefore).
  cbn [gpt_scan_keys]. rewrite Hvals. cbn [res_bind].
  rewrite (targeting_has_In _ _ Hin), Hid. cbn [res_bind].
  rewrite Hel. reflexivity.
Qed.

(** X5. In the GPT lookup the first targeting hit whose slot element
    exists decides: the result is the first visible iframe inside that
    element, or [null] when it holds none.  Keys and slots after the hit
    are not consulted, even if one of them would lead to an iframe. *)
Theorem findIframeByGptAdId_first_hit_decides
  pg g a before s after kbefore k kafter vs id el :
  a <> "" ->
  googletag pg = Some g ->
  getSlots g = Ok (before ++ s :: after)%list ->
  gpt_scan_slots pg (VStr a) before = Ok None ->
  getTargetingKeys s = Ok (kbefore ++ k :: kafter)%list ->
  gpt_scan_keys pg (VStr a) s kbefore = Ok None ->
  getTargeting s k = Ok (Some vs) ->
  In a vs ->
  getSlotElementId s = Ok id ->
  getElementById pg id = Some el ->
  findIframeByGptAdId pg (VStr a) = Ok (querySelector_iframe pg el)
  /\ (querySelector_iframe pg el = None -> findIframeByGptAdId pg (VStr a) = Ok None).
Proof.
  intros Ha Hg Hslots Hbefore Hkeys Hkbefore Hvals Hin Hid Hel.
  assert (findIframeByGptAdId pg (VStr a) = Ok (querySelector_iframe pg el)) as H
    by (eapply findIframeByGptAdId_first_hit; eassumption).
  split; [exact H |]. intros Hnone. rewrite H, Hnone. reflexivity.
Qed.

Lemma findIframeByGptAdId_first_hit_decides_witness :
  querySelector_iframe (with_googletag (Some gpt_shadowed) pg0) sidebar = None
  /\ findIframeByGptAdId (with_googletag (Some gpt) pg0) (VStr "ad-1") = Ok (Some frame)
  /\ findIframeByGptAdId (with_googletag (Some gpt_shadowed) pg0) (VStr "ad-1") = Ok None.
Proof.
  split; [reflexivity |]. split; [reflexivity |].
  destruct (findIframeByGptAdId_first_hit_decides
              (with_googletag (Some gpt_shadowed) pg0) gpt_shadowed "ad-1"
              [] gpt_sidebar_hit [gpt_ad_slot] [] "hb_adid" [] ["ad-1"] "sidebar" sidebar)
    as [_ H].
  - discriminate.
  - reflexivity.
  - reflexivity.
  - reflexivity.
  - reflexivity.
  - reflexivity.
  - reflexivity.
  - simpl. left. reflexivity.
  - reflexivity.
  - reflexivity.
  - apply H. reflexivity.
Defined.

Lemma findIframeByGptAdId_throwing_slot pg g adId before s after e :
  googletag pg = Some g ->
  getSlots g = Ok (before ++ s :: after)%list ->
  gpt_scan_slots pg adId before = Ok None ->
  getTargetingKeys s = Throw e ->
  findIframeByGptAdId pg adId = Ok None.
Proof.
  intros Hg Hslots Hbefore Hthrow. unfold findIframeByGptAdId.
  destruct (negb (truthy adId)); [reflexivity |].
  rewrite Hg, Hslots. cbn [res_bind].
  rewrite (gpt_scan_slots_app _ _ _ _ Hbefore).
  cbn [gpt_scan_slots]. rewrite Hthrow. reflexivity.
Qed.

(** X6. The GPT lookup has one [try] around both loops: when a slot throws
    on [getTargetingKeys], the whole lookup gives [null], also when a later
    slot is targeted with the ad id.  (The source-window scan, by contrast,
    passes over an iframe that throws.) *)
Theorem findIframeByGptAdId_aborts_on_throw pg g adId before s after e :
  googletag pg = Some g ->
  getSlots g = Ok (before ++ s :: after)%list ->
  gpt_scan_slots pg adId before = Ok None ->
  getTargetingKeys s = Throw e ->
  findIframeByGptAdId pg adId = Ok None.
Proof. apply findIframeByGptAdId_throwing_slot. Qed.

Lemma findIframeByGptAdId_aborts_on_throw_witness :
  findIframeByGptAdId (with_googletag (Some gpt) pg0) (VStr "ad-1") = Ok (Some frame)
  /\ getTargetingKeys gpt_faulty_slot = Throw (VStr "destroyed")
  /\ findIframeByGptAdId (with_googletag (Some gpt_faulty) pg0) (VStr "ad-1") = Ok None.
Proof.
  split; [reflexivity |]. split; [reflexivity |].
  apply (findIframeByGptAdId_aborts_on_throw (with_googletag (Some gpt_faulty) pg0)
           gpt_faulty (VStr "ad-1") [] gpt_faulty_slot [gpt_ad_slot] (VStr "destroyed"));
    reflexivity.
Defined.

Lemma guess_walk_eq pg el :
  guess_walk pg el
  = if decide (el = body pg) then VNull
    else if negb (String.eqb (id_of pg el) "") then VStr (id_of pg el)
    else match el with
         | [] => VNull
         | _ :: up => guess_walk pg up
         end.
Proof. destruct el; reflexivity. Qed.

Lemma guess_walk_spec pg : forall el,
  guess_walk pg el = VNull
  \/ exists near anc,
       el = (near ++ anc)%list
       /\ guess_walk pg el = VStr (id_of pg anc)
       /\ id_of pg anc <> ""
       /\ anc <> body pg
       /\ forall n1 n2, near = (n1 ++ n2)%list -> n2 <> [] ->
            id_of pg (n2 ++ anc)%list = "" /\ (n2 ++ anc)%list <> body pg.
Proof.
  assert (forall el,
            el <> body pg -> id_of pg el <> "" ->
            exists near anc,
              el = (near ++ anc)%list
              /\ VStr (id_of pg el) = VStr (id_of pg anc)
              /\ id_of pg anc <> ""
              /\ anc <> body pg
              /\ forall n1 n2, near = (n1 ++ n2)%list -> n2 <> [] ->
                   id_of pg (n2 ++ anc)%list = "" /\ (n2 ++ anc)%list <> body pg) as Hhere.
  { intros el Hb Hid. exists [], el.
    split; [reflexivity |]. split; [reflexivity |].
    split; [exact Hid |]. split; [exact Hb |].
    intros n1 n2 Hn Hne. symmetry in Hn. apply app_eq_nil in Hn as [_ ->].
    contradiction. }
  induction el as [|i up IH]; rewrite guess_walk_eq.
  - destruct (decide _) as [Hb|Hb]; [left; reflexivity |].
    destruct (String.eqb_spec (id_of pg []) ""); cbn [negb]; [left; reflexivity |].
    right. apply Hhere; assumption.
  - destruct (decide _) as [Hb|Hb]; [left; reflexivity |].
    destruct (String.eqb_spec (id_of pg (i :: up)) "") as [Hid|Hid]; cbn [negb].
    + destruct IH as [-> | (near & anc & Hup & Hres & Hanc & Hbody & Hmid)];
        [left; reflexivity |].
      right. exists (i :: near), anc. rewrite Hres.
      split; [simpl; rewrite Hup; reflexivity |]. split; [reflexivity |].
      split; [exact Hanc |]. split; [exact Hbody |].
      intros n1 n2 Hn Hne. destruct n1 as [|j n1]; simpl in Hn.
      * subst n2. simpl. rewrite <- Hup. auto.
      * injection Hn as _ Hn. apply (Hmid n1 n2); assumption.
    + right. apply Hhere; assumption.
Qed.

Lemma guess_walk_finds pg anc : forall near,
  id_of pg anc <> "" ->
  (forall n1 n2, near = (n1 ++ n2)%list -> (n2 ++ anc)%list <> body pg) ->
  exists s, guess_walk pg (near ++ anc)%list = VStr s /\ s <> "".
Proof.
  induction near as [|i near IH]; intros Hid Hbody; rewrite guess_walk_eq.
  - destruct (decide _) as [Hb|Hb]; [destruct (Hbody [] [] eq_refl Hb) |].
    destruct (String.eqb_spec (id_of pg ([] ++ anc)%list) "") as [He|He];
      [contradiction | cbn [negb]; eauto].
  - destruct (decide _) as [Hb|Hb]; [destruct (Hbody [] (i :: near) eq_refl Hb) |].
    destruct (String.eqb_spec (id_of pg ((i :: near) ++ anc)%list) "") as [He|He];
      cbn [negb]; [| eauto].
    cbn [app]. apply IH; [exact Hid |].
    intros n1 n2 Hn. apply (Hbody (i :: n1) n2). rewrite Hn. reflexivity.
Qed.

(** X7. [guessAdUnitCode] gives the id of the nearest proper ancestor of the
    iframe that has a non-empty id, looking no further than [document.body]:
    it is [null] or that non-empty id, never the iframe's own id. *)
Theorem guessAdUnitCode_nearest_ancestor_id :
  (forall pg, guessAdUnitCode pg None = VNull)
  /\ (forall pg own, guessAdUnitCode pg (Some (own :: body pg)) = VNull)
  /\ (forall pg f,
        guessAdUnitCode pg (Some f) = VNull
        \/ exists own near anc,
             f = (own :: near ++ anc)%list
             /\ guessAdUnitCode pg (Some f) = VStr (id_of pg anc)
             /\ id_of pg anc <> ""
             /\ anc <> body pg
             /\ forall n1 n2, near = (n1 ++ n2)%list -> n2 <> [] ->
                  id_of pg (n2 ++ anc)%list = "" /\ (n2 ++ anc)%list <> body pg)
  /\ (forall pg own near anc,
        id_of pg anc <> "" ->
        (forall n1 n2, near = (n1 ++ n2)%list -> (n2 ++ anc)%list <> body pg) ->
        exists s, guessAdUnitCode pg (Some (own :: near ++ anc)%list) = VStr s /\ s <> "").
Proof.
  split; [reflexivity |]. split.
  { intros pg own. cbn [guessAdUnitCode parentElement]. rewrite guess_walk_eq.
    destruct (decide _) as [Hb|Hb]; [reflexivity | contradiction]. }
  split.
  { intros pg [|own up]; [left; reflexivity |].
    cbn [guessAdUnitCode parentElement].
    destruct (guess_walk_spec pg up) as [-> | (near & anc & Hup & Hrest)];
      [left; reflexivity |].
    right. exists own, near, anc. rewrite Hup at 1. auto. }
  intros pg own near anc Hid Hbody. cbn [guessAdUnitCode parentElement].
  apply guess_walk_finds; assumption.
Qed.

Lemma guessAdUnitCode_nearest_ancestor_id_witness :
  id_of pg0 slot_div <> ""
  /\ guessAdUnitCode pg0 (Some frame) = VStr "div-gpt-ad-123".
Proof.
  split; [discriminate |].
  destruct guessAdUnitCode_nearest_ancestor_id as (_ & _ & _ & H).
  destruct (H pg0 0%nat [] slot_div) as (s & Hs & _).
  - discriminate.
  - intros n1 n2 Hn. symmetry in Hn. apply app_eq_nil in Hn as [_ ->]. discriminate.
  - reflexivity.
Defined.

(** ** Configuration and height *)



(** X9. Whenever [resolveHeight] returns, the result is [null] or a number
    above zero: never zero, a negative number, NaN or a value of another
    type, so that [getDimension] turns it into ["100%"] or a positive pixel
    length. *)
Theorem resolveHeight_null_or_positive pg slotCfg data iframe r :
  resolveHeight pg slotCfg data iframe = Ok r ->
  (r = VNull /\ getDimension r = "100%")
  \/ (exists n, r = VNum n /\ num_pos n = true
                /\ getDimension r = num_to_string n ++ "px").
Proof.
  assert (forall v, pos_number v = true ->
            exists n, v = VNum n /\ num_pos n = true
                      /\ getDimension v = num_to_string n ++ "px") as Hpos.
  { intros v Hv. destruct v as [| | |n| | | | |]; try discriminate.
    exists n. split; [reflexivity |]. split; [exact Hv |].
    unfold getDimension. cbn [truthy to_string].
    destruct n as [| | |z]; try discriminate; try reflexivity.
    simpl in Hv. apply Z.ltb_lt in Hv. cbn [num_truthy].
    destruct (Z.eqb_spec z 0); [lia | reflexivity]. }
  unfold resolveHeight. rewrite slot_guard.
  destruct (pos_number (prop slotCfg "height")) eqn:Hs.
  { intros [= <-]. right. apply Hpos. exact Hs. }
  unfold get_prop. destruct (nullish data); [discriminate |]. cbn [res_bind].
  rewrite number_guard.
  destruct (pos_number (prop data "height")) eqn:Hm.
  { intros [= <-]. right. apply Hpos. exact Hm. }
  destruct (truthy iframe); [| intros [= <-]; left; split; reflexivity].
  destruct (getComputedStyle pg iframe) as [[hs|]|e]; cbn [res_bind];
    [| intros [= <-]; left; split; reflexivity | discriminate].
  destruct (num_pos (parseInt hs)) eqn:Hc; intros [= <-];
    [right; apply Hpos; exact Hc | left; split; reflexivity].
Qed.

Lemma resolveHeight_null_or_positive_witness :
  resolveHeight pg0 VNull (payload (VNum (Fin (-5)))) (VElem frame) = Ok (VNum (Fin 90))
  /\ ((VNum (Fin 90) = VNull /\ getDimension (VNum (Fin 90)) = "100%")
      \/ (exists n, VNum (Fin 90) = VNum n /\ num_pos n = true
                    /\ getDimension (VNum (Fin 90)) = num_to_string n ++ "px")).
Proof.
  split; [reflexivity |].
  apply (resolveHeight_null_or_positive pg0 VNull (payload (VNum (Fin (-5)))) (VElem frame)).
  reflexivity.
Defined.

(** X10. [resolveHeight] reads [data.height] unguarded: on a [null] or
    [undefined] payload it throws a [TypeError] unless the slot
    configuration already decided the height. *)
Theorem resolveHeight_nullish_payload pg slotCfg data iframe :
  nullish data = true ->
  resolveHeight pg slotCfg data iframe
  = if pos_number (prop slotCfg "height") then Ok (prop slotCfg "height")
    else Throw type_error.
Proof.
  intros Hn. unfold resolveHeight. rewrite slot_guard.
  destruct (pos_number (prop slotCfg "height")); [reflexivity |].
  unfold get_prop. rewrite Hn. reflexivity.
Qed.

Lemma resolveHeight_nullish_payload_witness :
  nullish VNull = true
  /\ resolveHeight pg0 VNull VNull (VElem frame) = Throw type_error.
Proof.
  split; [reflexivity |].
  exact (resolveHeight_nullish_payload pg0 VNull VNull (VElem frame) eq_refl).
Defined.

(** ** Reading back a pixel length *)

Lemma digit_of_pretty_N_char x :
  (x < 10)%N -> digit_of (pretty_N_char x) = Some (Z.of_N x).
Proof.
  intros Hx.
  destruct x as [|p]; [reflexivity |].
  do 4 (destruct p as [p|p|]; try reflexivity; try lia).
Qed.

Lemma read_digits_pretty_N_go : forall x,
  (0 < x)%N ->
  exists k, forall acc s,
    read_digits acc (pretty_N_go x s)
    = read_digits (Some (default 0%Z acc * 10 ^ k + Z.of_N x)%Z) s
    /\ (0 < k)%Z.
Proof.
  intros x. induction x as [x IH] using (well_founded_induction N.lt_wf_0). intros Hx.
  assert (x `mod` 10 < 10)%N as Hmod by (apply N.mod_lt; lia).
  destruct (decide (x `div` 10 = 0)%N) as [Hsmall|Hbig].
  - exists 1%Z. intros acc s. split; [| lia].
    rewrite pretty_N_go_step by assumption. rewrite Hsmall, pretty_N_go_0.
    cbn [read_digits]. rewrite digit_of_pretty_N_char by assumption.
    f_equal. f_equal.
    assert (x = x `mod` 10)%N as Hx' by (rewrite (N.div_mod x 10) at 1 by lia; lia).
    rewrite <- Hx'. change (10 ^ 1)%Z with 10%Z.
    generalize (default 0%Z acc) (Z.of_N x). clear. intros a b. lia.
  - destruct (IH (x `div` 10)%N) as [k Hk].
    { apply N.div_lt; lia. }
    { apply N.neq_0_lt_0. exact Hbig. }
    exists (k + 1)%Z. intros acc s. destruct (Hk acc s) as [_ Hkpos]. split; [| lia].
    rewrite pretty_N_go_step by assumption.
    destruct (Hk acc (String (pretty_N_char (x `mod` 10)) s)) as [-> _].
    cbn [read_digits]. rewrite digit_of_pretty_N_char by assumption.
    f_equal. f_equal. cbn [default from_option id].
    rewrite Z.pow_add_r by lia. change (10 ^ 1)%Z with 10%Z.
    assert (Z.of_N x = 10 * Z.of_N (x `div` 10) + Z.of_N (x `mod` 10))%Z as ->.
    { rewrite (N.div_mod x 10) at 1 by lia. rewrite N2Z.inj_add, N2Z.inj_mul. reflexivity. }
    generalize (default 0%Z acc) (10 ^ k)%Z (Z.of_N (x `div` 10)) (Z.of_N (x `mod` 10)).
    clear. intros a b c d. lia.
Qed.

Lemma pretty_N_go_app : forall x s t,
  (pretty_N_go x s ++ t) = pretty_N_go x (s ++ t).
Proof.
  intros x. induction x as [x IH] using (well_founded_induction N.lt_wf_0). intros s t.
  destruct (decide (x = 0)%N) as [->|Hx]; [rewrite !pretty_N_go_0; reflexivity |].
  rewrite (pretty_N_go_step x s), (pretty_N_go_step x (s ++ t)) by lia.
  rewrite IH by (apply N.div_lt; lia). reflexivity.
Qed.

Lemma pretty_N_go_head : forall x s,
  (0 < x)%N ->
  exists d rest, (d < 10)%N /\ pretty_N_go x s = String (pretty_N_char d) rest.
Proof.
  intros x. induction x as [x IH] using (well_founded_induction N.lt_wf_0). intros s Hx.
  rewrite pretty_N_go_step by assumption.
  destruct (decide (x `div` 10 = 0)%N) as [Hsmall|Hbig].
  - rewrite Hsmall, pretty_N_go_0. exists (x `mod` 10)%N, s.
    split; [apply N.mod_lt; lia | reflexivity].
  - apply IH; [apply N.div_lt; lia | apply N.neq_0_lt_0; exact Hbig].
Qed.

Lemma parseInt_digit_head d rest :
  (d < 10)%N ->
  parseInt (String (pretty_N_char d) rest)
  = match read_digits None (String (pretty_N_char d) rest) with
    | Some z => Fin z
    | None => NaN
    end.
Proof.
  intros Hd. destruct d as [|p]; [reflexivity |].
  do 4 (destruct p as [p|p|]; try reflexivity; try lia).
Qed.

Lemma parseInt_pretty_px (z : Z) :
  (0 < z)%Z -> parseInt (pretty z ++ "px") = Fin z.
Proof.
  intros Hz. destruct z as [|p|p]; try lia.
  unfold pretty, pretty_Z, pretty_positive, pretty, pretty_N.
  destruct (decide (N.pos p = 0)%N) as [H|_]; [discriminate |].
  rewrite pretty_N_go_app. change ("" ++ "px") with "px".
  destruct (pretty_N_go_head (N.pos p) "px") as (d & rest & Hd & Hhead); [lia |].
  rewrite Hhead, (parseInt_digit_head _ _ Hd), <- Hhead.
  destruct (read_digits_pretty_N_go (N.pos p)) as [k Hk]; [lia |].
  destruct (Hk None "px") as [-> _]. reflexivity.
Qed.

(** X11. The pixel length that [getDimension] writes for an integer height
    above zero (and below 10^21, where JavaScript still renders a number
    in plain decimal) reads back, with [parseInt], as that height; so
    [resolveHeight] returns the height again when the computed style
    reports the length written and nothing else sets a height. *)
Theorem getDimension_reads_back (z : Z) :
  (0 < z)%Z -> (z < 10 ^ 21)%Z ->
  parseInt (getDimension (VNum (Fin z))) = Fin z
  /\ forall pg e,
       computed pg e = Some (getDimension (VNum (Fin z))) ->
       resolveHeight pg VNull (VObj []) (VElem e) = Ok (VNum (Fin z)).
Proof.
  intros Hz _.
  assert (getDimension (VNum (Fin z)) = pretty z ++ "px") as Hdim.
  { unfold getDimension. cbn [truthy num_truthy to_string num_to_string].
    destruct (Z.eqb_spec z 0); [lia | reflexivity]. }
  assert (parseInt (getDimension (VNum (Fin z))) = Fin z) as Hback
    by (rewrite Hdim; apply parseInt_pretty_px; exact Hz).
  split; [exact Hback |].
  intros pg e Hc.
  change (VElem e) with (elem_value (Some e)). rewrite resolveHeight_chain.
  cbn [mbind option_bind]. rewrite Hc. unfold height_by_priority.
  cbn [prop pos_number assoc default from_option id]. rewrite Hback.
  cbn [num_pos]. destruct (Z.ltb_spec 0 z); [reflexivity | lia].
Qed.

Lemma getDimension_reads_back_witness :
  (0 < 250)%Z
  /\ (250 < 10 ^ 21)%Z
  /\ getDimension (VNum (Fin 250)) = "250px"
  /\ parseInt (getDimension (VNum (Fin 250))) = Fin 250.
Proof.
  split; [lia |]. split; [reflexivity |]. split; [reflexivity |].
  destruct (getDimension_reads_back 250) as [H _]; [lia | reflexivity | exact H].
Defined.

(** ** What [defaultResize] leaves alone *)

Lemma defaultResize_elsewhere iframe width height st e :
  e <> iframe -> parentElement iframe <> Some e ->
  data_at (page (snd (defaultResize iframe width height st))) e = data_at (page st) e.
Proof.
  intros Hne Hnp.
  assert (iframe <> e) as Hne' by (intros ->; apply Hne; reflexivity).
  unfold defaultResize, forEach, bind, write_elem, update, ret. cbn [page calls].
  destruct iframe as [|i up]; cbn [parentElement] in *.
  - destruct (truthy width), (truthy height); cbn [snd page];
      rewrite ?(data_at_write_other _ _ _ _ Hne'); reflexivity.
  - assert (up <> e) as Hup by (intros ->; apply Hnp; reflexivity).
    destruct (truthy width), (truthy height); cbn [snd page];
      rewrite ?(data_at_write_other _ _ _ _ Hne'), ?(data_at_write_other _ _ _ _ Hup),
        ?(data_at_write_other _ _ _ _ Hne'); reflexivity.
Qed.

Lemma defaultResize_page iframe width height st :
  exists t, page (snd (defaultResize iframe width height st)) = with_dom t (page st).
Proof.
  unfold defaultResize, forEach, bind, write_elem, update, ret. cbn [page calls].
  destruct iframe as [|i up]; cbn [parentElement];
    destruct (truthy width), (truthy height); cbn [snd page]; eexists; reflexivity.
Qed.

(** X12. [defaultResize] writes to the iframe and to its parent element
    only: every other element is as before, no element appears or
    disappears, and tag, id and content window of every element are kept.
    Of the page nothing but the document changes (configuration, console
    and its output stay), and no callback is invoked. *)
Theorem defaultResize_touches_only iframe width height st :
  (exists t, page (snd (defaultResize iframe width height st)) = with_dom t (page st))
  /\ calls (snd (defaultResize iframe width height st)) = calls st
  /\ (forall e, e <> iframe -> parentElement iframe <> Some e ->
        data_at (page (snd (defaultResize iframe width height st))) e = data_at (page st) e)
  /\ (forall e,
        match data_at (page st) e,
              data_at (page (snd (defaultResize iframe width height st))) e with
        | Some d, Some d' =>
            el_tag d' = el_tag d /\ el_id d' = el_id d
            /\ el_contentWindow d' = el_contentWindow d
        | None, None => True
        | _, _ => False
        end).
Proof.
  destruct (defaultResize_run iframe width height st)
    as (st' & Hrun & Hcalls & _ & _ & Hframe & Hparent).
  split; [apply defaultResize_page |].
  split; [rewrite Hrun; exact Hcalls |].
  split; [intros e; apply defaultResize_elsewhere |].
  intros e. destruct (decide (e = iframe)) as [->|Hne].
  { rewrite Hrun. cbn [snd]. rewrite Hframe.
    destruct (data_at (page st) iframe) as [d|]; cbn; [| exact I].
    unfold reattribute, restyle. destruct (truthy height); repeat split; reflexivity. }
  destruct (decide (parentElement iframe = Some e)) as [Hp|Hp].
  { rewrite Hrun. cbn [snd]. rewrite (Hparent e Hp).
    destruct (data_at (page st) e) as [d|]; cbn; [| exact I].
    repeat split; reflexivity. }
  rewrite (defaultResize_elsewhere _ _ _ _ _ Hne Hp).
  destruct (data_at (page st) e); [repeat split; reflexivity | exact I].
Qed.

Lemma defaultResize_touches_only_witness :
  sidebar <> frame
  /\ parentElement frame <> Some sidebar
  /\ data_at (page (snd (defaultResize frame VNull (VNum (Fin 250)) (st_of pg0)))) sidebar
     = Some (plain "div" "sidebar").
Proof.
  split; [discriminate |]. split; [discriminate |].
  destruct (defaultResize_touches_only frame VNull (VNum (Fin 250)) (st_of pg0))
    as (_ & _ & H & _).
  rewrite (H sidebar); [reflexivity | discriminate | discriminate].
Defined.

(** X13. [defaultResize] is idempotent on the document: running it a second
    time with the same iframe, width and height leaves every element as
    the first run left it. *)
Theorem defaultResize_idempotent iframe width height st e :
  data_at (page (snd (defaultResize iframe width height
                        (snd (defaultResize iframe width height st))))) e
  = data_at (page (snd (defaultResize iframe width height st))) e.
Proof.
  destruct (defaultResize_run iframe width height st)
    as (st1 & Hrun1 & _ & _ & _ & Hframe1 & Hparent1).
  rewrite Hrun1. cbn [snd].
  destruct (defaultResize_run iframe width height st1)
    as (st2 & Hrun2 & _ & _ & _ & Hframe2 & Hparent2).
  destruct (decide (e = iframe)) as [->|Hne].
  { rewrite Hrun2. cbn [snd]. rewrite Hframe2, Hframe1.
    destruct (data_at (page st) iframe) as [d|]; cbn; [| reflexivity].
    unfold reattribute, restyle. destruct (truthy height); reflexivity. }
  destruct (decide (parentElement iframe = Some e)) as [Hp|Hp].
  { rewrite Hrun2. cbn [snd]. rewrite (Hparent2 e Hp), (Hparent1 e Hp).
    destruct (data_at (page st) e) as [d|]; reflexivity. }
  apply defaultResize_elsewhere; assumption.
Qed.

(** ** The handler as a whole *)

Section HandlerOutcomes.

Variable JSON_parse : string -> res value.
Variable call : nat -> list value -> Page -> res value * Page.

Local Notation handle := (onMessage JSON_parse call).
Local Notation decoded := (decode JSON_parse).

Lemma is_false_cases v : v = VBool false \/ v <> VBool false.
Proof. destruct v as [| |[|]| | | | | |]; auto; right; discriminate. Qed.

Lemma is_function_VFun v : is_function v = true -> exists f, v = VFun f.
Proof. destruct v; try discriminate. eauto. Qed.

Lemma selected_callback_function pg data iframe fv :
  selected_callback pg data iframe = Some fv -> exists f, fv = VFun f.
Proof.
  unfold selected_callback.
  destruct (truthy _ && is_function (prop (resolved_slot pg data iframe) "resizeFunction"))
    eqn:Hs.
  - intros [= <-]. apply andb_true_iff in Hs as [_ Hs].
    apply is_function_VFun. exact Hs.
  - destruct (is_function (prop (getConfig pg) "resizeFunction")) eqn:Hg; [| discriminate].
    intros [= <-]. apply is_function_VFun. exact Hg.
Qed.

Lemma onMessage_not_found ev st data :
  decoded (raw_of ev) = Some data ->
  not_stretch data = false ->
  prop (getConfig (page st)) "enabled" <> VBool false ->
  findAdIframe (page st) ev (or_else (prop data "adId") VNull)
    (or_else (prop data "adUnitCode") VNull) = Ok None ->
  handle ev st
  = (Ok tt, {| page := console_write Warn has_warn
                         (not_found_message (or_else (prop data "adId") VNull)) (page st);
               calls := calls st |}).
Proof.
  intros Hdec Hvalid Hon Hfind.
  unfold onMessage. rewrite Hdec, Hvalid.
  unfold bind at 1. unfold gets at 1. cbn [page].
  rewrite (is_false_false _ Hon).
  unfold bind at 1. unfold read at 1. rewrite Hfind. reflexivity.
Qed.

(** The ways a run of the handler can end. *)
Lemma onMessage_outcomes ev st :
  handle ev st = (Ok tt, st)
  \/ (exists msg,
        handle ev st
        = (Ok tt, {| page := console_write Warn has_warn msg (page st);
                     calls := calls st |}))
  \/ (exists data iframe f,
        selected_callback (page st) data iframe = Some (VFun f)
        /\ handle ev st
           = (Ok tt,
              {| page := match call f (callback_args (page st) ev data iframe) (page st) with
                         | (Ok _, pg') => pg'
                         | (Throw e, pg') =>
                             console_write Error has_error (threw_message e) pg'
                         end;
                 calls := (calls st ++ [(f, callback_args (page st) ev data iframe)])%list |}))
  \/ (exists data iframe st1 msg,
        selected_callback (page st) data iframe = None
        /\ defaultResize iframe VNull (resolved_height (page st) data iframe) st = (Ok tt, st1)
        /\ calls st1 = calls st
        /\ output (page st1) = output (page st)
        /\ handle ev st
           = (Ok tt, {| page := console_write Info has_log msg (page st1);
                        calls := calls st |})).
Proof.
  destruct (decoded (raw_of ev)) as [data|] eqn:Hdec;
    [| left; unfold onMessage; rewrite Hdec; reflexivity].
  destruct (not_stretch data) eqn:Hvalid;
    [left; unfold onMessage; rewrite Hdec, Hvalid; reflexivity |].
  destruct (is_false_cases (prop (getConfig (page st)) "enabled")) as [Hoff|Hon].
  { right. left. eexists. unfold onMessage. rewrite Hdec, Hvalid.
    unfold bind, gets. cbn [page]. rewrite Hoff. reflexivity. }
  destruct (findAdIframe_returns (page st) ev (or_else (prop data "adId") VNull)
              (or_else (prop data "adUnitCode") VNull)) as [[iframe|] Hfind].
  2:{ right. left. eexists. apply onMessage_not_found; eassumption. }
  right. right.
  rewrite (onMessage_resize _ _ _ _ _ _ Hdec Hvalid Hon Hfind).
  destruct (selected_callback (page st) data iframe) as [fv|] eqn:Hsel.
  - left. destruct (selected_callback_function _ _ _ _ Hsel) as [f ->].
    exists data, iframe, f. split; [exact Hsel |].
    rewrite (selected_function_invoke _ _ f _ _ eq_refl).
    destruct (call f _ (page st)) as [[v|e] pg']; reflexivity.
  - right.
    destruct (defaultResize_run iframe VNull (resolved_height (page st) data iframe) st)
      as (st1 & Hrun & Hcalls & Hout & _).
    exists data, iframe, st1. eexists. split; [exact Hsel |]. split; [exact Hrun |].
    split; [exact Hcalls |]. split; [exact Hout |].
    unfold bind. rewrite Hrun. unfold logInfo, update. rewrite Hcalls. reflexivity.
Qed.



(** X16. Unless it hands over to a callback, the handler writes at most one
    line to the console, and that line starts with the script's tag. *)
Theorem onMessage_at_most_one_line ev st :
  calls (snd (handle ev st)) = calls st ->
  output (page (snd (handle ev st))) = output (page st)
  \/ exists lvl msg,
       output (page (snd (handle ev st)))
       = (output (page st) ++ [(lvl, [PREFIX; msg])])%list.
Proof.
  assert (forall lvl method msg pg,
            output (console_write lvl method msg pg) = output pg
            \/ output (console_write lvl method msg pg)
               = (output pg ++ [(lvl, [PREFIX; msg])])%list) as Hw.
  { intros lvl method msg pg. unfold console_write.
    destruct (console pg) as [c|]; [destruct (method c) |]; auto. }
  destruct (onMessage_outcomes ev st)
    as [H | [(msg & H) | [(data & iframe & f & Hsel & H) | (data & iframe & st1 & msg & _ & _ & _ & Hout & H)]]];
    rewrite H; cbn [snd calls page]; intros Hcalls.
  - auto.
  - destruct (Hw Warn has_warn msg (page st)) as [-> | ->]; eauto.
  - exfalso. apply (f_equal (@List.length _)) in Hcalls.
    rewrite length_app in Hcalls. simpl in Hcalls. lia.
  - destruct (Hw Info has_log msg (page st1)) as [-> | ->]; rewrite Hout; eauto.
Qed.



End HandlerOutcomes.

Lemma onMessage_at_most_one_line_witness :
  calls (snd (onMessage json behaviour ev_unplaced (st_of pg0))) = calls (st_of pg0)
  /\ (output (page (snd (onMessage json behaviour ev_unplaced (st_of pg0))))
      = output (page (st_of pg0))
      \/ exists lvl msg,
           output (page (snd (onMessage json behaviour ev_unplaced (st_of pg0))))
           = (output (page (st_of pg0)) ++ [(lvl, [PREFIX; msg])])%list).
Proof.
  split; [reflexivity |].
  apply (onMessage_at_most_one_line json behaviour ev_unplaced (st_of pg0)).
  reflexivity.
Defined.




Lemma findIframeBySource_document_order_witness :
  querySelectorAll_iframe pg0 = [frame]
  /\ contentWindow pg0 frame = Ok (ev_source ev_stretch)
  /\ findIframeBySource pg0 ev_stretch = Ok (Some frame).
Proof.
  split; [reflexivity |]. split; [reflexivity |].
  destruct findIframeBySource_document_order as (_ & H & _).
  apply (H pg0 ev_stretch [] frame []).
  - reflexivity.
  - intros g [].
  - reflexivity.
Defined.
